(** * image-edit: template registry, format detection and request orchestration

    A shallow embedding of the Python package [image_edit]:
    - [utils/image.py]      : [ImageFormat], [detect_format], [format_from_extension]
    - [templates/registry.py], [templates/builtin.py] : [Template], [TemplateRegistry]
    - [providers/base.py], [providers/gemini.py]      : [ProviderError], [GeminiProvider]
    - [core.py]             : [get_provider], [resolve_prompt], [combine_images]

    Python [bytes] are lists of [Byte.byte]; [str] is [string] (the code only ever
    compares against ASCII literals); a [dict] keyed by strings is a [gmap string _];
    a raised exception is the [Raise] case of [result]; mutation of an object is
    explicit state passing. *)

From Stdlib Require Import Strings.Ascii Strings.Byte.
From stdpp Require Import gmap strings list fin_maps pretty.

(** ** Exceptions and results *)

(** The exception classes that occur in the modelled code.  [ProviderError] is the
    only class the package declares ([providers/base.py]); it carries its message
    and the exception it was raised [from].  [ValueError], [KeyError] and
    [IndexError] are the built-ins raised by [core.py], by dict subscripting and by
    list indexing.  [ForeignError] stands for any other exception, as raised by the
    transport library, with its class name and its [str()]. *)
#[warnings="-register-all"]
Inductive exn : Type :=
| ProviderError (msg : string) (cause : option exn)
| ValueError (msg : string)
| KeyError (key : string)
| IndexError (msg : string)
| ForeignError (cls : string) (msg : string).



(** [isinstance(e, ProviderError)] *)
Definition isinstance_ProviderError (e : exn) : bool :=
  match e with ProviderError _ _ => true | _ => false end.

(** [str(e)], as interpolated by an f-string. *)
Definition exn_str (e : exn) : string :=
  match e with
  | ProviderError m _ | ValueError m | IndexError m | ForeignError _ m => m
  | KeyError k => "'" +:+ k +:+ "'"
  end.

Inductive result (A : Type) : Type :=
| Ok (a : A)
| Raise (e : exn).
Arguments Ok {A} a.
Arguments Raise {A} e.

(** Code that mutates an object and may raise: a state transformer over the
    object's fields whose result is a value or an exception.  The state reached
    when an exception is raised is kept, as in Python, where the mutations done
    before a [raise] are not undone. *)
Definition action (St A : Type) : Type := St → result A * St.

Definition ret {St A} (a : A) : action St A := λ s, (Ok a, s).

Definition raise {St A} (e : exn) : action St A := λ s, (Raise e, s).

Definition lift {St A} (r : result A) : action St A := λ s, (r, s).

Definition bind {St A B} (m : action St A) (k : A → action St B) : action St B :=
  λ s, match m s with
       | (Ok a, s') => k a s'
       | (Raise e, s') => (Raise e, s')
       end.

Definition get_state {St} : action St St := λ s, (Ok s, s).

Definition modify {St} (f : St → St) : action St unit := λ s, (Ok tt, f s).

(** [try: body except Exception as e: handler e] *)
Definition try_except {St A} (body : action St A) (handler : exn → action St A)
  : action St A :=
  λ s, match body s with
       | (Ok a, s') => (Ok a, s')
       | (Raise e, s') => handler e s'
       end.

(** [for x in xs: body x] *)
Fixpoint for_each {St A} (xs : list A) (body : A → action St unit) : action St unit :=
  match xs with
  | [] => ret tt
  | x :: xs' => bind (body x) (λ _, for_each xs' body)
  end.

Notation "'let*' x ':=' m 'in' k" := (bind m (λ x, k))
  (at level 10, x name, m at level 100, k at level 200).
Notation "m ';;;' k" := (bind m (λ _, k))
  (at level 100, k at level 200, right associativity).

(** [d[k]] on a dict: [KeyError] when the key is absent. *)
Definition getitem {V} (d : gmap string V) (k : string) : result V :=
  match d !! k with
  | Some v => Ok v
  | None => Raise (KeyError k)
  end.

(** Truth value of an [Optional[str]]: [None] and the empty string are falsy. *)
Definition truthy (o : option string) : bool :=
  match o with
  | Some s => if decide (s = "") then false else true
  | None => false
  end.

(** Python bytes. *)
Abbreviation bytes := (list byte).

#[global] Instance byte_eq_decision : EqDecision byte := Byte.byte_eq_dec.

(** ** utils/image.py *)

Module Image.

Inductive ImageFormat : Type := PNG | JPEG | WEBP | GIF.

#[global] Instance ImageFormat_eq_dec : EqDecision ImageFormat.
Proof. solve_decision. Defined.

(** The enum's string value. *)
Definition value (f : ImageFormat) : string :=
  match f with PNG => "png" | JPEG => "jpeg" | WEBP => "webp" | GIF => "gif" end.

Definition mime_type (f : ImageFormat) : string := "image/" +:+ value f.

Definition extension (f : ImageFormat) : string :=
  if decide (f = JPEG) then ".jpg" else "." +:+ value f.

(** The byte literals [detect_format] compares against. *)
Definition PNG_SIGNATURE : bytes := [x89; x50; x4e; x47; x0d; x0a; x1a; x0a].
Definition JPEG_SIGNATURE : bytes := [xff; xd8; xff].
Definition RIFF : bytes := [x52; x49; x46; x46].
Definition WEBP_TAG : bytes := [x57; x45; x42; x50].
Definition GIF87a : bytes := [x47; x49; x46; x38; x37; x61].
Definition GIF89a : bytes := [x47; x49; x46; x38; x39; x61].

(** Python slices: [data[:n]] is [take n data], [data[i:j]] is
    [take (j - i) (drop i data)]; both are total. *)
Definition slice (i j : nat) (data : bytes) : bytes := take (j - i) (drop i data).

Definition detect_format (data : bytes) : option ImageFormat :=
  if decide (length data < 4) then None
  else if decide (take 8 data = PNG_SIGNATURE) then Some PNG
  else if decide (take 3 data = JPEG_SIGNATURE) then Some JPEG
  else if decide (take 4 data = RIFF ∧ (12 ≤ length data)%nat ∧ slice 8 12 data = WEBP_TAG)
       then Some WEBP
  else if decide (take 6 data = GIF87a ∨ take 6 data = GIF89a) then Some GIF
  else None.

(** [str.lower] on the ASCII range. *)
Definition lower_char (c : ascii) : ascii :=
  let n := nat_of_ascii c in
  if (65 <=? n) && (n <=? 90) then ascii_of_nat (n + 32) else c.

Fixpoint lower (s : string) : string :=
  match s with
  | EmptyString => EmptyString
  | String c s' => String (lower_char c) (lower s')
  end.

Fixpoint mem_char (c : ascii) (chars : string) : bool :=
  match chars with
  | EmptyString => false
  | String d chars' => if decide (c = d) then true else mem_char c chars'
  end.

(** [s.lstrip(chars)]: drop every leading character that occurs in [chars]. *)
Fixpoint lstrip (chars : string) (s : string) : string :=
  match s with
  | EmptyString => EmptyString
  | String c s' => if mem_char c chars then lstrip chars s' else s
  end.

(** The local dict [mapping] of [format_from_extension]. *)
Definition mapping : gmap string ImageFormat :=
  <["gif" := GIF]> (<["webp" := WEBP]> (<["jpeg" := JPEG]>
    (<["jpg" := JPEG]> (<["png" := PNG]> ∅)))).

Definition format_from_extension (ext : string) : option ImageFormat :=
  let ext := lstrip "." (lower ext) in
  mapping !! ext.

End Image.

(** ** templates/registry.py *)

(** One [[template]] table of the user's [templates.toml], as [load_user_templates]
    reads it: the four keys it looks at, each present or absent.  A key that is
    present is taken at the type the [Template] dataclass declares for it. *)
Module TemplateData.
Record t : Type := Build {
  name : option string;
  prompt : option string;
  description : option string;
  aliases : option (list string);
}.
End TemplateData.

(** What [load_user_templates] finds at [config_dir / "templates.toml"]. *)
Inductive TemplatesFile : Type :=
| Missing                                 (* [templates_file.exists()] is false *)
| Unloadable (e : exn)                    (* [open] or [tomllib.load] raises [e] *)
| Loaded (template : list TemplateData.t). (* [data.get("template", [])] *)

Module Templates.

Record Template : Type := {
  name : string;
  prompt : string;
  description : string;
  aliases : list string;
}.

Definition all_names (self : Template) : list string := name self :: aliases self.

Record TemplateRegistry : Type := {
  _templates : gmap string Template;
  _alias_map : gmap string string;
}.

(** [TemplateRegistry()] *)
Definition TemplateRegistry_init : TemplateRegistry :=
  {| _templates := ∅; _alias_map := ∅ |}.

Definition register (self : TemplateRegistry) (template : Template) : TemplateRegistry :=
  let templates := <[name template := template]> (_templates self) in
  {| _templates := templates;
     _alias_map :=
       foldl (λ alias_map alias, <[alias := name template]> alias_map)
             (_alias_map self) (aliases template) |}.

(** [self._templates[...]] raises [KeyError] on an absent key, so [get] is
    modelled as fallible. *)
Definition get (self : TemplateRegistry) (name : string) : result (option Template) :=
  if decide (is_Some (_templates self !! name)) then
    match getitem (_templates self) name with
    | Ok t => Ok (Some t)
    | Raise e => Raise e
    end
  else if decide (is_Some (_alias_map self !! name)) then
    match getitem (_alias_map self) name with
    | Ok target =>
        match getitem (_templates self) target with
        | Ok t => Ok (Some t)
        | Raise e => Raise e
        end
    | Raise e => Raise e
    end
  else Ok None.

(** The [Template(...)] call in [load_user_templates]: [tmpl_data["name"]] and
    [tmpl_data["prompt"]] raise [KeyError] when absent, the two [.get] calls
    fall back to their defaults.  A key that is present is taken at the type
    the dataclass declares; [RegistryIO.make_template] below takes the values
    as [tomllib] yields them. *)
Definition template_of_data (tmpl_data : TemplateData.t) : result Template :=
  match TemplateData.name tmpl_data with
  | None => Raise (KeyError "name")
  | Some n =>
      match TemplateData.prompt tmpl_data with
      | None => Raise (KeyError "prompt")
      | Some p =>
          Ok {| name := n;
                prompt := p;
                description := default "" (TemplateData.description tmpl_data);
                aliases := default [] (TemplateData.aliases tmpl_data) |}
      end
  end.

(** The state is the registry object [self].  [get_config_dir()] and
    [templates_file.exists()], which stand before the [try], are taken to
    return; [RegistryIO.load_user_templates] below lets them raise. *)
Definition load_user_templates (templates_file : TemplatesFile)
  : action TemplateRegistry unit :=
  match templates_file with
  | Missing => ret tt
  | Unloadable e => try_except (raise e) (λ _, ret tt)
  | Loaded data =>
      try_except
        (for_each data (λ tmpl_data,
           let* template := lift (template_of_data tmpl_data) in
           modify (λ self, register self template)))
        (λ _, ret tt)
  end.

End Templates.

(** ** templates/builtin.py *)

Module Builtin.
Import Templates.

Definition BUILTIN_TEMPLATES : list Template := [
  {| name := "remove-bg";
     prompt :=
       "Remove the background from this image completely. "
       +:+ "Make the background fully transparent while preserving the main subject "
       +:+ "with clean, precise edges. Keep only the primary subject visible.";
     description := "Remove background, make transparent";
     aliases := ["removebg"; "nobg"; "background-remove"] |};
  {| name := "enhance";
     prompt :=
       "Enhance this image to improve overall quality. "
       +:+ "Increase clarity and sharpness, optimize lighting and exposure, "
       +:+ "reduce noise, and improve color balance. "
       +:+ "Make the image look more professional and polished.";
     description := "Improve quality, clarity, and lighting";
     aliases := ["improve"; "fix"; "auto-enhance"] |};
  {| name := "upscale";
     prompt :=
       "Upscale and enhance this image to a higher resolution. "
       +:+ "Increase the detail and sharpness while maintaining natural appearance. "
       +:+ "Fill in fine details intelligently and reduce any pixelation or blur.";
     description := "Increase resolution intelligently";
     aliases := ["resize"; "enlarge"; "hd"] |};
  {| name := "vintage";
     prompt :=
       "Apply a vintage film photography effect to this image. "
       +:+ "Add subtle film grain, slightly faded colors, warm tones, "
       +:+ "and a nostalgic aesthetic reminiscent of photos from the 1970s-80s.";
     description := "Apply vintage/retro film effect";
     aliases := ["retro"; "film"; "old-photo"] |};
  {| name := "sepia";
     prompt :=
       "Convert this image to sepia tone. "
       +:+ "Apply a warm brownish tint throughout, "
       +:+ "creating a classic, antique photograph appearance.";
     description := "Apply sepia tone effect";
     aliases := ["brown"; "antique"] |};
  {| name := "sharpen";
     prompt :=
       "Sharpen this image to increase clarity and detail. "
       +:+ "Enhance edges and fine details while avoiding artifacts. "
       +:+ "Make the image appear crisper and more defined.";
     description := "Sharpen and increase clarity";
     aliases := ["crisp"; "clarity"] |};
  {| name := "bw";
     prompt :=
       "Convert this image to black and white. "
       +:+ "Create a high-quality monochrome version with good tonal range, "
       +:+ "proper contrast, and artistic appeal.";
     description := "Convert to black and white";
     aliases := ["blackwhite"; "grayscale"; "mono"; "monochrome"] |};
  {| name := "blur-bg";
     prompt :=
       "Apply a professional depth-of-field blur to the background. "
       +:+ "Keep the main subject in sharp focus while creating a smooth, "
       +:+ "pleasing bokeh effect on the background. "
       +:+ "Make it look like a professional portrait photo.";
     description := "Blur background, keep subject sharp";
     aliases := ["bokeh"; "portrait-mode"; "depth"] |};
  {| name := "cartoon";
     prompt :=
       "Transform this image into a cartoon or illustrated style. "
       +:+ "Simplify details, add bold outlines, and use vibrant, "
       +:+ "flat colors to create an animated/comic book appearance.";
     description := "Convert to cartoon/illustration style";
     aliases := ["animate"; "comic"; "illustrated"] |};
  {| name := "watercolor";
     prompt :=
       "Transform this image into a watercolor painting style. "
       +:+ "Add soft, flowing brush strokes, subtle color bleeding, "
       +:+ "and the characteristic translucent quality of watercolor art.";
     description := "Apply watercolor painting effect";
     aliases := ["painting"; "artistic"] |}
].

End Builtin.

Module Registry.
Import Templates Builtin.

(** The state is the module global [_registry]; the global is assigned before
    the built-ins are registered and the user file is loaded. *)
Definition get_registry (templates_file : TemplatesFile)
  : action (option TemplateRegistry) TemplateRegistry :=
  λ _registry,
    match _registry with
    | Some registry => (Ok registry, _registry)
    | None =>
        let registry := foldl register TemplateRegistry_init BUILTIN_TEMPLATES in
        match load_user_templates templates_file registry with
        | (Ok _, registry') => (Ok registry', Some registry')
        | (Raise e, registry') => (Raise e, Some registry')
        end
    end.

End Registry.

(** ** providers/base.py, providers/gemini.py *)

Module Providers.

Record EditResult : Type := {
  image_data : bytes;
  mime_type : string;
  provider : string;
  model : option string;
}.

(** What [get_settings()] yields for the two properties the provider reads. *)
Record Settings : Type := {
  gemini_api_key : option string;
  gemini_model : string;
}.

(** The request handed to [client.models.generate_content]. *)
Inductive Part : Type :=
| from_bytes (data : bytes) (mime_type : string)
| from_text (text : string).

Inductive Contents : Type :=
| Content (parts : list Part)
| Text (prompt : string).

Record Request : Type := {
  req_model : string;
  req_contents : Contents;
  response_modalities : list string;
}.

(** The response, as far as the provider inspects it. *)
Record Blob : Type := { data : bytes; blob_mime_type : string }.
Record ResponsePart : Type := { inline_data : option Blob; text : option string }.
Record Candidate : Type := { parts : list ResponsePart }.
Record Response : Type := { candidates : list Candidate }.

Record Client : Type := { api_key : string }.

(** The surroundings of a provider call: the settings and the remote service,
    which answers a request with a response or raises. *)
Record Env : Type := {
  settings : Settings;
  generate_content : Client → Request → result Response;
}.

(** An image with its optional MIME hint. *)
Abbreviation image := (bytes * option string)%type.

(** One invocation of a provider method, with its arguments. *)
Inductive Call : Type :=
| CallEdit (image_data : bytes) (prompt : string) (mime_type : option string)
| CallGenerate (prompt : string)
| CallCombine (images : list image) (prompt : string).

(** What an observer of the process sees: provider methods being entered and
    requests going out to the remote service.  The list of events is the
    model's record of these effects; the source keeps no such list. *)
Inductive Event : Type :=
| Invoked (c : Call)
| Sent (req : Request).

(** The provider object (its only field is the cached client), with the
    events so far. *)
Record GeminiProvider : Type := {
  _client : option Client;
  events : list Event;
}.

Definition log (ev : Event) : action GeminiProvider unit :=
  modify (λ self, {| _client := _client self; events := events self ++ [ev] |}).

Definition set_client (c : Client) : action GeminiProvider unit :=
  modify (λ self, {| _client := Some c; events := events self |}).

Definition name : string := "gemini".

Definition model_name (env : Env) : string := gemini_model (settings env).

Definition is_configured (env : Env) : bool := truthy (gemini_api_key (settings env)).

(** [get_settings()] and [genai.Client(...)] are taken to return;
    [GeminiIO._get_client] below lets them raise. *)
Definition _get_client (env : Env) : action GeminiProvider Client :=
  let* self := get_state in
  match _client self with
  | Some c => ret c
  | None =>
      match gemini_api_key (settings env) with
      | Some key =>
          if truthy (Some key) then
            set_client {| api_key := key |} ;;;
            ret {| api_key := key |}
          else
            raise (ProviderError
              ("Gemini API key not configured. "
               +:+ "Run 'image-edit config set api-key YOUR_KEY' or set GEMINI_API_KEY.")
              None)
      | None =>
          raise (ProviderError
            ("Gemini API key not configured. "
             +:+ "Run 'image-edit config set api-key YOUR_KEY' or set GEMINI_API_KEY.")
            None)
      end
  end.

(** The call to the remote service; the request is recorded as it leaves. *)
Definition send (env : Env) (client : Client) (req : Request)
  : action GeminiProvider Response :=
  log (Sent req) ;;;
  lift (generate_content env client req).

(** [response.candidates[0].content.parts] *)
Definition first_candidate_parts (response : Response) : result (list ResponsePart) :=
  match candidates response with
  | c :: _ => Ok (parts c)
  | [] => Raise (IndexError "list index out of range")
  end.

(** The loop that returns at the first part with [inline_data]. *)
Fixpoint first_inline_data (ps : list ResponsePart) : option Blob :=
  match ps with
  | [] => None
  | p :: ps' =>
      match inline_data p with
      | Some b => Some b
      | None => first_inline_data ps'
      end
  end.

(** [[p.text for p in parts if p.text]] *)
Fixpoint text_parts (ps : list ResponsePart) : list string :=
  match ps with
  | [] => []
  | p :: ps' =>
      match text p with
      | Some t => if truthy (Some t) then t :: text_parts ps' else text_parts ps'
      | None => text_parts ps'
      end
  end.

(** [sep.join(xs)] *)
Fixpoint join (sep : string) (xs : list string) : string :=
  match xs with
  | [] => ""
  | [x] => x
  | x :: xs' => x +:+ sep +:+ join sep xs'
  end.

Definition edit_result (env : Env) (b : Blob) : EditResult :=
  {| image_data := data b;
     mime_type := blob_mime_type b;
     provider := name;
     model := Some (model_name env) |}.

(** The common [except Exception as e] clause of the three operations. *)
Definition wrap_foreign {A} (e : exn) : action GeminiProvider A :=
  if isinstance_ProviderError e then raise e
  else raise (ProviderError ("Gemini API error: " +:+ exn_str e) (Some e)).

(** The block [if mime_type is None: fmt = detect_format(image_data);
    mime_type = fmt.mime_type if fmt else "image/png"] of [edit] and [combine]:
    the MIME type given to [Part.from_bytes]. *)
Definition mime_or_detect (image_data : bytes) (mime_type : option string) : string :=
  match mime_type with
  | Some m => m
  | None =>
      match Image.detect_format image_data with
      | Some fmt => Image.mime_type fmt
      | None => "image/png"
      end
  end.

Definition edit (env : Env) (image_data : bytes) (prompt : string)
    (mime_type : option string) : action GeminiProvider EditResult :=
  log (Invoked (CallEdit image_data prompt mime_type)) ;;;
  let* client := _get_client env in
  let mime_type := mime_or_detect image_data mime_type in
  try_except
    (let* response :=
       send env client
         {| req_model := model_name env;
            req_contents := Content [from_bytes image_data mime_type; from_text prompt];
            response_modalities := ["IMAGE"; "TEXT"] |} in
     let* ps := lift (first_candidate_parts response) in
     match first_inline_data ps with
     | Some b => ret (edit_result env b)
     | None =>
         match text_parts ps with
         | [] => raise (ProviderError "Gemini response contained no image data" None)
         | ts =>
             raise (ProviderError
               ("Gemini returned text instead of image: " +:+ join " " ts) None)
         end
     end)
    wrap_foreign.

Definition generate (env : Env) (prompt : string) : action GeminiProvider EditResult :=
  log (Invoked (CallGenerate prompt)) ;;;
  let* client := _get_client env in
  try_except
    (let* response :=
       send env client
         {| req_model := model_name env;
            req_contents := Text prompt;
            response_modalities := ["IMAGE"; "TEXT"] |} in
     let* ps := lift (first_candidate_parts response) in
     match first_inline_data ps with
     | Some b => ret (edit_result env b)
     | None => raise (ProviderError "Gemini response contained no image data" None)
     end)
    wrap_foreign.

Definition combine (env : Env) (images : list image) (prompt : string)
  : action GeminiProvider EditResult :=
  log (Invoked (CallCombine images prompt)) ;;;
  let* client := _get_client env in
  let parts :=
    map (λ '(image_data, mime_type),
           from_bytes image_data (mime_or_detect image_data mime_type)) images
    ++ [from_text prompt] in
  try_except
    (let* response :=
       send env client
         {| req_model := model_name env;
            req_contents := Content parts;
            response_modalities := ["IMAGE"; "TEXT"] |} in
     let* ps := lift (first_candidate_parts response) in
     match first_inline_data ps with
     | Some b => ret (edit_result env b)
     | None =>
         match text_parts ps with
         | [] => raise (ProviderError "Gemini response contained no image data" None)
         | ts =>
             raise (ProviderError
               ("Gemini returned text instead of image: " +:+ join " " ts) None)
         end
     end)
    wrap_foreign.

End Providers.

(** ** core.py *)

Module Core.
Import Templates Registry Providers.

(** The keys of the local dict [providers]. *)
Definition providers : list string := ["gemini"].

(** [providers[name]()]: a new provider object, continuing the event history
    [events] of the process. *)
Definition get_provider (name : string) (events : list Event) : result GeminiProvider :=
  if decide (name ∈ providers) then Ok {| _client := None; events := events |}
  else
    Raise (ValueError
      ("Unknown provider '" +:+ name +:+ "'. Available: " +:+ join ", " providers)).

(** The state is the module global [_registry]. *)
Definition resolve_prompt (templates_file : TemplatesFile) (prompt_or_template : string)
  : action (option TemplateRegistry) string :=
  let* registry := get_registry templates_file in
  let* template := lift (get registry prompt_or_template) in
  match template with
  | Some t => ret (prompt t)
  | None => ret prompt_or_template
  end.

(** The state is the event history of the process; the provider object made
    by [get_provider] is dropped when the call returns. *)
Definition combine_images (env : Env) (images : list image) (prompt : string)
    (provider_name : string) : action (list Event) EditResult :=
  λ evs,
    if decide (length images < 2) then
      (Raise (ValueError "At least 2 images are required for combine operation"), evs)
    else
      match get_provider provider_name evs with
      | Raise e => (Raise e, evs)
      | Ok provider =>
          let '(r, provider') := combine env images prompt provider in
          (r, events provider')
      end.

End Core.

(** ** config.py *)

Module Config.
Import Providers.

(** A value of the configuration file.  [set_config_value] only writes strings;
    a file edited by hand may hold the other TOML types.  [TOther] is any value
    that is not a string, an integer or a boolean, with its [str()]. *)
Inductive TomlValue : Type :=
| TStr (s : string)
| TInt (z : Z)
| TBool (b : bool)
| TOther (shown : string).

(** [str(value)] *)
Definition py_str (v : TomlValue) : string :=
  match v with
  | TStr s => s
  | TInt z => pretty z
  | TBool true => "True"
  | TBool false => "False"
  | TOther shown => shown
  end.

(** What is found at [get_config_file()]. *)
Inductive ConfigFile : Type :=
| NoConfigFile                               (* [config_file.exists()] is false *)
| BadConfigFile                              (* [open] or [tomllib.load] raises *)
| ConfigTable (config : gmap string TomlValue).

(** The surroundings of the configuration functions: [os.environ] and the
    configuration file. *)
Record World : Type := {
  environ : gmap string string;
  config_file : ConfigFile;
}.

(** The dict [CONFIG_KEYS], in the order of its literal. *)
Definition CONFIG_KEYS : list (string * string) := [
  ("api-key", "Gemini API key for authentication");
  ("model",
   "Gemini model to use (e.g., gemini-3-pro-image-preview, gemini-2.0-flash-exp)");
  ("default-format", "Default output format (png, jpeg, webp, gif)");
  ("default-quality", "Default quality setting")
].

Definition DEFAULTS : gmap string string :=
  <["default-quality" := "1K"]> (<["default-format" := "png"]>
    (<["model" := "gemini-3-pro-image-preview"]> ∅)).

(** The local dict [env_map] of [get_config_value]. *)
Definition env_map : gmap string string :=
  <["default-quality" := "IMAGE_EDIT_DEFAULT_QUALITY"]>
    (<["default-format" := "IMAGE_EDIT_DEFAULT_FORMAT"]>
      (<["model" := "GEMINI_MODEL"]> (<["api-key" := "GEMINI_API_KEY"]> ∅))).

Definition _load_config_file (f : ConfigFile) : gmap string TomlValue :=
  match f with
  | NoConfigFile => ∅
  | BadConfigFile => ∅
  | ConfigTable config => config
  end.

(** The state is the configuration file. *)
Definition _save_config_file (config : gmap string TomlValue) : action ConfigFile unit :=
  modify (λ _, ConfigTable config).

Definition get_config_value (key : string) (w : World) : option string :=
  let env_var := env_map !! key in
  let env_value :=
    if truthy env_var then environ w !! default "" env_var else None in
  if truthy env_var && truthy env_value then env_value
  else
    let config := _load_config_file (config_file w) in
    match config !! key with
    | Some file_value => Some (py_str file_value)
    | None => DEFAULTS !! key
    end.

Definition set_config_value (key value : string) : action ConfigFile unit :=
  if decide (key ∈ CONFIG_KEYS.*1) then
    let* f := get_state in
    let config := _load_config_file f in
    _save_config_file (<[key := TStr value]> config)
  else
    raise (ValueError
      ("Unknown configuration key '" +:+ key +:+ "'. Valid keys: "
       +:+ join ", " CONFIG_KEYS.*1)).

Definition unset_config_value (key : string) : action ConfigFile bool :=
  let* f := get_state in
  let config := _load_config_file f in
  if decide (is_Some (config !! key)) then
    _save_config_file (delete key config) ;;;
    ret true
  else ret false.

(** [a or b] on an [Optional[str]] and a string. *)
Definition or_default (o : option string) (d : string) : string :=
  if truthy o then default d o else d.

(** [DEFAULTS[key]] for the three keys [Settings] subscripts; they are present. *)
Definition DEFAULTS_at (key : string) : string := default "" (DEFAULTS !! key).

(** The properties of class [Settings]. *)
Definition gemini_api_key (w : World) : option string := get_config_value "api-key" w.

Definition gemini_model (w : World) : string :=
  or_default (get_config_value "model" w) (DEFAULTS_at "model").

Definition default_format (w : World) : string :=
  or_default (get_config_value "default-format" w) (DEFAULTS_at "default-format").

Definition default_quality (w : World) : string :=
  or_default (get_config_value "default-quality" w) (DEFAULTS_at "default-quality").



End Config.

(** ** core.py, continued: [edit_image] and [generate_image] *)

Module CoreOps.
Import Templates Registry Providers Core.

(** The state is the module global [_registry] together with the event history
    of the process. *)
Definition edit_image (templates_file : TemplatesFile) (env : Env)
    (image_data : bytes) (prompt : string) (provider_name : string)
    (mime_type : option string)
  : action (option TemplateRegistry * list Event) EditResult :=
  λ '(g, evs),
    match get_provider provider_name evs with
    | Raise e => (Raise e, (g, evs))
    | Ok provider =>
        match resolve_prompt templates_file prompt g with
        | (Raise e, g') => (Raise e, (g', evs))
        | (Ok resolved_prompt, g') =>
            let '(r, provider') :=
              edit env image_data resolved_prompt mime_type provider in
            (r, (g', events provider'))
        end
    end.

(** The state is the event history of the process. *)
Definition generate_image (env : Env) (prompt : string) (provider_name : string)
  : action (list Event) EditResult :=
  λ evs,
    match get_provider provider_name evs with
    | Raise e => (Raise e, evs)
    | Ok provider =>
        let '(r, provider') := generate env prompt provider in
        (r, events provider')
    end.

End CoreOps.

(** ** utils/io.py *)

Module IO.
Import Image.

(** A [pathlib.Path]: the path as a string and its [suffix], which [pathlib]
    computes from the string. *)
Record Path : Type := {
  path_str : string;
  suffix : string;
}.

(** The files, the standard input and the standard output of the process.
    [stdin] is [None] when the standard input is a terminal. *)
Record FS : Type := {
  files : gmap string bytes;
  stdin : option bytes;
  stdout : bytes;
}.

(** [click.ClickException(message)] *)
Definition ClickException (message : string) : exn := ForeignError "ClickException" message.

(** The readers consume the standard input they read. *)
Definition read_stdin : action FS bytes :=
  λ fs, (Ok (default [] (stdin fs)),
         {| files := files fs; stdin := (λ _, []) <$> stdin fs; stdout := stdout fs |}).

Definition read_image_input (input_path : option Path)
  : action FS (bytes * option ImageFormat) :=
  match input_path with
  | Some input_path =>
      let* fs := get_state in
      match files fs !! path_str input_path with
      | None => raise (ClickException ("Input file not found: " +:+ path_str input_path))
      | Some data =>
          if decide (data = []) then
            raise (ClickException ("Input file is empty: " +:+ path_str input_path))
          else
            let fmt :=
              match detect_format data with
              | Some fmt => Some fmt
              | None => format_from_extension (suffix input_path)
              end in
            ret (data, fmt)
      end
  | None =>
      let* fs := get_state in
      match stdin fs with
      | None =>
          raise (ClickException
            "No input provided. Use -i/--input for a file or pipe an image via stdin.")
      | Some _ =>
          let* data := read_stdin in
          if decide (data = []) then raise (ClickException "No data received from stdin.")
          else ret (data, detect_format data)
      end
  end.

(** The loop over [input_paths] of [read_multiple_images]. *)
Fixpoint read_paths (input_paths : list Path) (fs : FS)
  : result (list (bytes * option ImageFormat)) :=
  match input_paths with
  | [] => Ok []
  | path :: input_paths' =>
      match files fs !! path_str path with
      | None => Raise (ClickException ("Input file not found: " +:+ path_str path))
      | Some data =>
          if decide (data = []) then
            Raise (ClickException ("Input file is empty: " +:+ path_str path))
          else
            let fmt :=
              match detect_format data with
              | Some fmt => Some fmt
              | None => format_from_extension (suffix path)
              end in
            match read_paths input_paths' fs with
            | Ok images => Ok ((data, fmt) :: images)
            | Raise e => Raise e
            end
      end
  end.

Definition read_multiple_images (input_paths : list Path) (allow_stdin_fallback : bool)
  : action FS (list (bytes * option ImageFormat)) :=
  let* fs := get_state in
  let* images := lift (read_paths input_paths fs) in
  if bool_decide (length input_paths = 1) && allow_stdin_fallback
     && bool_decide (is_Some (stdin fs)) then
    let* stdin_data := read_stdin in
    if decide (stdin_data = []) then ret images
    else ret ((stdin_data, detect_format stdin_data) :: images)
  else ret images.

Section conversion.

(** The re-encoding done with the imaging library: [Image.open] on the bytes,
    the RGBA flattening for JPEG and [img.save] in the target format.  It
    yields the new bytes or raises. *)
Variable pil_convert : bytes → ImageFormat → result bytes.

Definition _convert_format (image_data : bytes) (target_format : option ImageFormat)
  : result bytes :=
  match target_format with
  | None => Ok image_data
  | Some target =>
      let source_format := detect_format image_data in
      if decide (source_format = Some target) then Ok image_data
      else pil_convert image_data target
  end.

(** [output_path.parent.mkdir(...)] and [output_path.write_bytes(final_data)],
    taken to succeed: the model says what is written where, not whether the
    file system accepts the write. *)
Definition write_file (path : Path) (data : bytes) : action FS unit :=
  modify (λ fs, {| files := <[path_str path := data]> (files fs);
                   stdin := stdin fs; stdout := stdout fs |}).

(** [stdout.write(final_data)], taken to succeed as well. *)
Definition write_stdout (data : bytes) : action FS unit :=
  modify (λ fs, {| files := files fs; stdin := stdin fs;
                   stdout := stdout fs ++ data |}).

Definition write_image_output (image_data : bytes) (output_path : option Path)
    (output_format : option ImageFormat) : action FS unit :=
  match output_path with
  | Some output_path =>
      let output_format :=
        match output_format with
        | None => format_from_extension (suffix output_path)
        | Some fmt => Some fmt
        end in
      let* final_data := lift (_convert_format image_data output_format) in
      write_file output_path final_data
  | None =>
      let output_format :=
        match output_format with
        | None => Some PNG
        | Some fmt => Some fmt
        end in
      let* final_data := lift (_convert_format image_data output_format) in
      write_stdout final_data
  end.

End conversion.

End IO.

(** ** cli.py: the [config] subcommands *)

Module Cli.
Import Config.

(** The state of a command: the surroundings of the configuration functions
    and the lines printed on the console so far. *)
Record Session : Type := {
  world : World;
  printed : list string;
}.

Definition console_print (line : string) : action Session unit :=
  modify (λ s, {| world := world s; printed := printed s ++ [line] |}).

(** Runs an action on the configuration file inside the session. *)
Definition on_config_file {A} (m : action ConfigFile A) : action Session A :=
  λ s, let '(r, f) := m (config_file (world s)) in
       (r, {| world := {| environ := environ (world s); config_file := f |};
              printed := printed s |}).

(** [typer.Exit(code)] *)
Definition Exit (code : Z) : exn := ForeignError "Exit" (pretty code).

(** [value[-4:]]: the last four characters, or the whole string when it is
    shorter. *)
Definition last_four (value : string) : string :=
  String.substring (String.length value - 4) 4 value.

(** [try: body except ValueError as e: handler e] *)
Definition try_except_ValueError {St A} (body : action St A)
    (handler : exn → action St A) : action St A :=
  try_except body
    (λ e, match e with ValueError _ => handler e | _ => raise e end).

Definition config_set (key value : string) : action Session unit :=
  try_except_ValueError
    (on_config_file (set_config_value key value) ;;;
     let display_value :=
       if bool_decide (key = "api-key") && bool_decide (4 < String.length value)
       then "****" +:+ last_four value else value in
     console_print ("[green]Set " +:+ key +:+ " = " +:+ display_value +:+ "[/green]"))
    (λ e,
       console_print ("[red]" +:+ exn_str e +:+ "[/red]") ;;;
       raise (Exit 1)).

Definition config_get (key : string) : action Session unit :=
  if decide (key ∈ CONFIG_KEYS.*1) then
    let* s := get_state in
    match get_config_value key (world s) with
    | None => console_print ("[dim]" +:+ key +:+ ": (not set)[/dim]")
    | Some value =>
        if decide (key = "api-key") then
          let masked :=
            if bool_decide (4 < String.length value)
            then "****" +:+ last_four value else "****" in
          console_print (key +:+ ": " +:+ masked)
        else console_print (key +:+ ": " +:+ value)
    end
  else
    console_print
      ("[red]Unknown key '" +:+ key +:+ "'. Valid keys: "
       +:+ Providers.join ", " CONFIG_KEYS.*1 +:+ "[/red]") ;;;
    raise (Exit 1).

End Cli.

(** ** templates/registry.py and core.py with untyped values and unguarded calls

    The modules [Templates], [Registry] and [Core] above take the values of the
    user's file at the types the [Template] dataclass declares, and take the
    calls that stand outside the [try] of [load_user_templates]
    ([get_config_dir()], [templates_file.exists()]) to succeed.  The module
    below embeds the same functions without these two assumptions: the values
    are what [tomllib] yields, whatever their type, and the unguarded calls may
    raise. *)

Module RegistryIO.

(** A value as [tomllib.load] builds it.  [PScalar] stands for the integers,
    floats, booleans and dates or times: the code only ever uses such a value
    as a dict key, so it is given by the number [x] of its class under the
    equality Python's dicts use (for which 1, 1.0 and True are one key). *)
#[warnings="-register-all"]
Inductive pyval : Type :=
| PStr (s : string)
| PScalar (x : N)
| PList (items : list pyval)
| PDict (entries : list (string * pyval)).

(** [TypeError(msg)] *)
Definition TypeError (msg : string) : exn := ForeignError "TypeError" msg.

(** A dict key: a string or a scalar.  No string equals a scalar. *)
Abbreviation key := (string + N)%type.

(** How a key shows in the message of a [KeyError]. *)
Definition key_str (k : key) : string :=
  match k with
  | inl s => s
  | inr x => pretty x
  end.

(** [hash(v)], as a dict needs it for a key: lists and dicts are unhashable. *)
Definition key_of (v : pyval) : result key :=
  match v with
  | PStr s => Ok (inl s)
  | PScalar x => Ok (inr x)
  | PList _ => Raise (TypeError "unhashable type: 'list'")
  | PDict _ => Raise (TypeError "unhashable type: 'dict'")
  end.

(** The characters of a string, each as a string of length one. *)
Fixpoint chars (s : string) : list pyval :=
  match s with
  | EmptyString => []
  | String c s' => PStr (String c EmptyString) :: chars s'
  end.

(** [iter(v)]: a string yields its characters, a list its items, a dict its
    keys; a scalar is not iterable. *)
Definition iterate (v : pyval) : result (list pyval) :=
  match v with
  | PStr s => Ok (chars s)
  | PList items => Ok items
  | PDict entries => Ok (map (λ kv, PStr kv.1) entries)
  | PScalar _ => Raise (TypeError "object is not iterable")
  end.

(** [d.get(k)] on the entries of a dict. *)
Fixpoint lookup_entry (k : string) (entries : list (string * pyval)) : option pyval :=
  match entries with
  | [] => None
  | (k', v) :: entries' => if decide (k = k') then Some v else lookup_entry k entries'
  end.

(** [v[k]] with a string [k]: [KeyError] on a dict without the key,
    [TypeError] on anything that is not a dict. *)
Definition subscript (v : pyval) (k : string) : result pyval :=
  match v with
  | PDict entries =>
      match lookup_entry k entries with
      | Some x => Ok x
      | None => Raise (KeyError k)
      end
  | PStr _ => Raise (TypeError "string indices must be integers")
  | PList _ => Raise (TypeError "list indices must be integers or slices, not str")
  | PScalar _ => Raise (TypeError "object is not subscriptable")
  end.

(** [v.get(k, d)]; only a dict has the method. *)
Definition get_or (v : pyval) (k : string) (d : pyval) : result pyval :=
  match v with
  | PDict entries => Ok (default d (lookup_entry k entries))
  | _ => Raise (ForeignError "AttributeError" "object has no attribute 'get'")
  end.

(** The dataclass checks nothing: a field holds whatever it was given. *)
Record Template : Type := {
  name : pyval;
  prompt : pyval;
  description : pyval;
  aliases : pyval;
}.

Record TemplateRegistry : Type := {
  _templates : gmap key Template;
  _alias_map : gmap key key;
}.

Definition TemplateRegistry_init : TemplateRegistry :=
  {| _templates := ∅; _alias_map := ∅ |}.

Definition set_template (k : key) (t : Template) : action TemplateRegistry unit :=
  modify (λ self, {| _templates := <[k := t]> (_templates self);
                     _alias_map := _alias_map self |}).

Definition set_alias (a k : key) : action TemplateRegistry unit :=
  modify (λ self, {| _templates := _templates self;
                     _alias_map := <[a := k]> (_alias_map self) |}).

(** The state is the registry object.  Each assignment hashes its key, the
    loop asks [template.aliases] for an iterator; either can raise
    [TypeError], and what was stored before stays stored. *)
Definition register (template : Template) : action TemplateRegistry unit :=
  let* k := lift (key_of (name template)) in
  set_template k template ;;;
  let* items := lift (iterate (aliases template)) in
  for_each items (λ alias,
    let* a := lift (key_of alias) in
    set_alias a k).

Definition get (self : TemplateRegistry) (name : string) : result (option Template) :=
  if decide (is_Some (_templates self !! inl name)) then
    match _templates self !! inl name with
    | Some t => Ok (Some t)
    | None => Raise (KeyError name)
    end
  else if decide (is_Some (_alias_map self !! inl name)) then
    match _alias_map self !! inl name with
    | Some target =>
        match _templates self !! target with
        | Some t => Ok (Some t)
        | None => Raise (KeyError (key_str target))
        end
    | None => Raise (KeyError name)
    end
  else Ok None.

(** The [Template(...)] call of [load_user_templates], arguments evaluated
    from left to right. *)
Definition make_template (tmpl_data : pyval) : result Template :=
  match subscript tmpl_data "name" with
  | Raise e => Raise e
  | Ok n =>
      match subscript tmpl_data "prompt" with
      | Raise e => Raise e
      | Ok p =>
          match get_or tmpl_data "description" (PStr "") with
          | Raise e => Raise e
          | Ok d =>
              match get_or tmpl_data "aliases" (PList []) with
              | Raise e => Raise e
              | Ok a => Ok {| name := n; prompt := p; description := d; aliases := a |}
              end
          end
      end
  end.

(** What [load_user_templates] meets on its way to the records. *)
Inductive TemplatesSource : Type :=
| DirFails (e : exn)      (* [get_config_dir()] or [templates_file.exists()] raises [e] *)
| NoFile                  (* [templates_file.exists()] is false *)
| LoadFails (e : exn)     (* [open] or [tomllib.load] raises [e] *)
| Parsed (data : list (string * pyval)). (* the top-level table [data] *)

(** The state is the registry object.  [get_config_dir()] and the existence
    check come before the [try]: what they raise leaves the function. *)
Definition load_user_templates (source : TemplatesSource)
  : action TemplateRegistry unit :=
  match source with
  | DirFails e => raise e
  | NoFile => ret tt
  | LoadFails e => try_except (raise e) (λ _, ret tt)
  | Parsed data =>
      try_except
        (let* records :=
           lift (iterate (default (PList []) (lookup_entry "template" data))) in
         for_each records (λ tmpl_data,
           let* template := lift (make_template tmpl_data) in
           register template))
        (λ _, ret tt)
  end.

(** A built-in template, as the object the registry stores. *)
Definition of_builtin (t : Templates.Template) : Template :=
  {| name := PStr (Templates.name t);
     prompt := PStr (Templates.prompt t);
     description := PStr (Templates.description t);
     aliases := PList (map PStr (Templates.aliases t)) |}.

(** The state is the module global [_registry].  The global is assigned
    first; an exception of the registrations or of the load leaves it
    assigned, with what was registered by then. *)
Definition get_registry (source : TemplatesSource)
  : action (option TemplateRegistry) TemplateRegistry :=
  λ _registry,
    match _registry with
    | Some registry => (Ok registry, _registry)
    | None =>
        match (for_each Builtin.BUILTIN_TEMPLATES (λ t, register (of_builtin t)) ;;;
               load_user_templates source) TemplateRegistry_init with
        | (Ok _, registry) => (Ok registry, Some registry)
        | (Raise e, registry) => (Raise e, Some registry)
        end
    end.

(** [resolve_prompt] of core.py; it returns the template's [prompt] field as
    it is, or the input string. *)
Definition resolve_prompt (source : TemplatesSource) (prompt_or_template : string)
  : action (option TemplateRegistry) pyval :=
  let* registry := get_registry source in
  let* template := lift (get registry prompt_or_template) in
  match template with
  | Some t => ret (prompt t)
  | None => ret (PStr prompt_or_template)
  end.

End RegistryIO.

(** ** providers/gemini.py with the calls outside the [try] blocks

    The module [Providers] above takes the calls that [edit], [generate] and
    [combine] make outside their [try] blocks to succeed.  The module below
    embeds the three operations with those calls allowed to raise. *)

Module GeminiIO.
Import Providers.

(** The calls of the operations that can raise besides the request itself,
    each with the exception it raises, if any:
    - [settings_fault]: reading [settings.gemini_api_key] in [_get_client]
      (the lookup creates the configuration directory and reads the file);
    - [client_fault]: [genai.Client(api_key=...)] in [_get_client];
    - [part_fault]: building the parts of the request ([types.Part...]);
    - [model_fault]: reading [self.model_name]. *)
Record Faults : Type := {
  settings_fault : option exn;
  client_fault : option exn;
  part_fault : option exn;
  model_fault : option exn;
}.

Definition no_faults : Faults :=
  {| settings_fault := None; client_fault := None;
     part_fault := None; model_fault := None |}.

(** Raises the exception of a fault, if there is one. *)
Definition check {St} (fault : option exn) : action St unit :=
  match fault with
  | Some e => raise e
  | None => ret tt
  end.

Definition _get_client (ft : Faults) (env : Env) : action GeminiProvider Client :=
  let* self := get_state in
  match _client self with
  | Some c => ret c
  | None =>
      check (settings_fault ft) ;;;
      match gemini_api_key (settings env) with
      | Some key =>
          if truthy (Some key) then
            check (client_fault ft) ;;;
            set_client {| api_key := key |} ;;;
            ret {| api_key := key |}
          else
            raise (ProviderError
              ("Gemini API key not configured. "
               +:+ "Run 'image-edit config set api-key YOUR_KEY' or set GEMINI_API_KEY.")
              None)
      | None =>
          raise (ProviderError
            ("Gemini API key not configured. "
             +:+ "Run 'image-edit config set api-key YOUR_KEY' or set GEMINI_API_KEY.")
            None)
      end
  end.

(** What the three operations do with the response. *)
Definition read_response (env : Env) (with_text : bool) (response : Response)
  : action GeminiProvider EditResult :=
  let* ps := lift (first_candidate_parts response) in
  match first_inline_data ps with
  | Some b => ret (edit_result env b)
  | None =>
      if with_text then
        match text_parts ps with
        | [] => raise (ProviderError "Gemini response contained no image data" None)
        | ts =>
            raise (ProviderError
              ("Gemini returned text instead of image: " +:+ join " " ts) None)
        end
      else raise (ProviderError "Gemini response contained no image data" None)
  end.

(** In [edit] the model name is read and the parts are built inside the
    [try], as arguments of the request. *)
Definition edit (ft : Faults) (env : Env) (image_data : bytes) (prompt : string)
    (mime_type : option string) : action GeminiProvider EditResult :=
  log (Invoked (CallEdit image_data prompt mime_type)) ;;;
  let* client := _get_client ft env in
  let mime_type := mime_or_detect image_data mime_type in
  try_except
    (check (model_fault ft) ;;;
     check (part_fault ft) ;;;
     let* response :=
       send env client
         {| req_model := model_name env;
            req_contents := Content [from_bytes image_data mime_type; from_text prompt];
            response_modalities := ["IMAGE"; "TEXT"] |} in
     read_response env true response)
    wrap_foreign.

Definition generate (ft : Faults) (env : Env) (prompt : string)
  : action GeminiProvider EditResult :=
  log (Invoked (CallGenerate prompt)) ;;;
  let* client := _get_client ft env in
  try_except
    (check (model_fault ft) ;;;
     let* response :=
       send env client
         {| req_model := model_name env;
            req_contents := Text prompt;
            response_modalities := ["IMAGE"; "TEXT"] |} in
     read_response env false response)
    wrap_foreign.

(** In [combine] the parts are built before the [try]. *)
Definition combine (ft : Faults) (env : Env) (images : list image) (prompt : string)
  : action GeminiProvider EditResult :=
  log (Invoked (CallCombine images prompt)) ;;;
  let* client := _get_client ft env in
  check (part_fault ft) ;;;
  let parts :=
    map (λ '(image_data, mime_type),
           from_bytes image_data (mime_or_detect image_data mime_type)) images
    ++ [from_text prompt] in
  try_except
    (check (model_fault ft) ;;;
     let* response :=
       send env client
         {| req_model := model_name env;
            req_contents := Content parts;
            response_modalities := ["IMAGE"; "TEXT"] |} in
     read_response env true response)
    wrap_foreign.

(** The three operations, by the call that enters them. *)
Definition run (ft : Faults) (env : Env) (c : Call) : action GeminiProvider EditResult :=
  match c with
  | CallEdit image_data prompt mime_type => edit ft env image_data prompt mime_type
  | CallGenerate prompt => generate ft env prompt
  | CallCombine images prompt => combine ft env images prompt
  end.

End GeminiIO.

(** * Vocabulary of the statements *)

Section detect_format_vocabulary.
Import Image.

(** The bytes of [data] at offsets [off .. off + length sig - 1] are [sig]. *)
Definition bytes_at (off : nat) (sig data : bytes) : Prop :=
  ∃ pre rest, length pre = off ∧ data = pre ++ sig ++ rest.

(** The condition of each branch, in the words of the format descriptions. *)
Definition looks_png (data : bytes) : Prop := PNG_SIGNATURE `prefix_of` data.
Definition looks_jpeg (data : bytes) : Prop := JPEG_SIGNATURE `prefix_of` data.
Definition looks_webp (data : bytes) : Prop :=
  RIFF `prefix_of` data ∧ 12 ≤ length data ∧ bytes_at 8 WEBP_TAG data.
Definition looks_gif (data : bytes) : Prop :=
  GIF87a `prefix_of` data ∨ GIF89a `prefix_of` data.

End detect_format_vocabulary.

Section format_from_extension_vocabulary.
Import Image.

(** [k] dots in a row. *)
Fixpoint dots (k : nat) : string :=
  match k with
  | 0 => ""
  | S k' => String "." (dots k')
  end.

Definition starts_with_dot (s : string) : Prop := ∃ s', s = String "." s'.

End format_from_extension_vocabulary.

Section registry_vocabulary.
Import Templates Builtin Registry Core.

(** The registries that [register] calls build from the empty one. *)
Definition registered_from (r0 : TemplateRegistry) (ts : list Template) : TemplateRegistry :=
  foldl register r0 ts.

(** Every alias entry names a key of the template table. *)
Definition aliases_resolve (r : TemplateRegistry) : Prop :=
  ∀ a n, _alias_map r !! a = Some n → is_Some (_templates r !! n).

Definition demo_old : Template :=
  {| name := "sketch"; prompt := "Draw this as a pencil sketch";
     description := ""; aliases := ["draw"; "pencil"] |}.

Definition demo_new : Template :=
  {| name := "ink"; prompt := "Draw this as an ink drawing";
     description := ""; aliases := ["draw"] |}.

(** The templates of the records before the first one that [Template(...)]
    rejects. *)
Fixpoint accepted_prefix (data : list TemplateData.t) : list Template :=
  match data with
  | [] => []
  | d :: data' =>
      match template_of_data d with
      | Ok t => t :: accepted_prefix data'
      | Raise _ => []
      end
  end.

Definition accepted (f : TemplatesFile) : list Template :=
  match f with
  | Missing | Unloadable _ => []
  | Loaded data => accepted_prefix data
  end.

Definition registered (r : TemplateRegistry) : Prop :=
  ∃ ts, r = registered_from TemplateRegistry_init ts.

End registry_vocabulary.

Section provider_vocabulary.
Import Providers Core.

(** The message of the error raised when no API key is configured. *)
Definition key_not_configured : string :=
  "Gemini API key not configured. "
  +:+ "Run 'image-edit config set api-key YOUR_KEY' or set GEMINI_API_KEY.".

(** A client is at hand: one is cached already, or a key is configured. *)
Definition has_client (env : Env) (self : GeminiProvider) : Prop :=
  is_Some (_client self) ∨ truthy (gemini_api_key (settings env)) = true.

(** The provider object after a method has been entered. *)
Definition entered (self : GeminiProvider) (c : Call) : GeminiProvider :=
  {| _client := _client self; events := events self ++ [Invoked c] |}.

(** The request [combine] builds. *)
Definition combine_request (env : Env) (images : list image) (prompt : string) : Request :=
  {| req_model := model_name env;
     req_contents :=
       Content (map (λ im : image, from_bytes im.1 (mime_or_detect im.1 im.2)) images
                ++ [from_text prompt]);
     response_modalities := ["IMAGE"; "TEXT"] |}.

Definition demo_settings : Settings :=
  {| gemini_api_key := Some "secret"; gemini_model := "gemini-3-pro-image-preview" |}.

(** A service that answers every request with one PNG image. *)
Definition demo_env : Env :=
  {| settings := demo_settings;
     generate_content := λ _ _,
       Ok {| candidates :=
               [{| parts := [{| inline_data :=
                                  Some {| data := Image.PNG_SIGNATURE;
                                          blob_mime_type := "image/png" |};
                                text := None |}] |}] |} |}.

Definition two_unhinted_images : list image :=
  [(Image.PNG_SIGNATURE, None); ([xff; xd8; xff; xe0], None)].

(** The three operations, by the call that enters them. *)
Definition run_call (env : Env) (c : Call) : action GeminiProvider EditResult :=
  match c with
  | CallEdit image_data prompt mime_type => edit env image_data prompt mime_type
  | CallGenerate prompt => generate env prompt
  | CallCombine images prompt => combine env images prompt
  end.



Definition new_provider : GeminiProvider := {| _client := None; events := [] |}.

End provider_vocabulary.

Section registry_further_vocabulary.
Import Templates Builtin Registry Core.

(** Every entry of the name table is stored under the name it carries. *)
Definition names_keyed (r : TemplateRegistry) : Prop :=
  ∀ n t, _templates r !! n = Some t → name t = n.

(** A second template under the name of [demo_old], without aliases. *)
Definition demo_replacement : Template :=
  {| name := "sketch"; prompt := "Draw this as a charcoal sketch";
     description := ""; aliases := [] |}.

(** A user record that takes the name of a built-in template. *)
Definition user_enhance : TemplateData.t :=
  TemplateData.Build (Some "enhance") (Some "Make it pop") None None.

End registry_further_vocabulary.

Section config_vocabulary.
Import Config.

(** The world with the environment [E] and the configuration file [f]. *)
Definition world_of (E : gmap string string) (f : ConfigFile) : World :=
  {| environ := E; config_file := f |}.


End config_vocabulary.

Section provider_further_vocabulary.
Import Providers Core.

(** The request an operation sends, by the call that enters it. *)
Definition request_of (env : Env) (c : Call) : Request :=
  match c with
  | CallEdit image_data prompt mime_type =>
      {| req_model := model_name env;
         req_contents :=
           Content [from_bytes image_data (mime_or_detect image_data mime_type);
                    from_text prompt];
         response_modalities := ["IMAGE"; "TEXT"] |}
  | CallGenerate prompt =>
      {| req_model := model_name env;
         req_contents := Text prompt;
         response_modalities := ["IMAGE"; "TEXT"] |}
  | CallCombine images prompt => combine_request env images prompt
  end.

(** A response part that is text only, and one that is an image. *)
Definition text_part (t : string) : ResponsePart :=
  {| inline_data := None; text := Some t |}.

Definition image_part (b : Blob) : ResponsePart :=
  {| inline_data := Some b; text := None |}.

Definition demo_blob : Blob :=
  {| data := Image.PNG_SIGNATURE; blob_mime_type := "image/png" |}.

(** A service that answers with some text, then an image, in its first
    candidate. *)
Definition text_then_image_env : Env :=
  {| settings := demo_settings;
     generate_content := λ _ _,
       Ok {| candidates :=
               [{| parts := [text_part "Here you are:"; image_part demo_blob] |}] |} |}.

(** A service that answers with text only. *)
Definition text_only_env : Env :=
  {| settings := demo_settings;
     generate_content := λ _ _,
       Ok {| candidates :=
               [{| parts := [text_part "I cannot"; text_part "do that"] |}] |} |}.

End provider_further_vocabulary.

Section core_further_vocabulary.
Import Providers Core.

(** The text of the [ValueError] for an unknown provider name. *)
Definition unknown_provider_message (provider_name : string) : string :=
  "Unknown provider '" +:+ provider_name +:+ "'. Available: gemini".

End core_further_vocabulary.

Section io_vocabulary.
Import Image IO.

(** The format [write_image_output] aims at when it writes to a file: the one
    asked for, else the one the suffix of the path stands for. *)
Definition file_target (output_path : Path) (output_format : option ImageFormat)
  : option ImageFormat :=
  match output_format with
  | Some fmt => Some fmt
  | None => format_from_extension (suffix output_path)
  end.

(** The file system after the file at [path] has been written with [data]. *)
Definition with_file (fs : FS) (path : Path) (data : bytes) : FS :=
  {| files := <[path_str path := data]> (files fs);
     stdin := stdin fs; stdout := stdout fs |}.

(** The file system after [data] has gone to the standard output. *)
Definition with_output (fs : FS) (data : bytes) : FS :=
  {| files := files fs; stdin := stdin fs; stdout := stdout fs ++ data |}.

(** A converter that fails on every input. *)
Definition failing_pil (_ : bytes) (_ : ImageFormat) : result bytes :=
  Raise (ForeignError "UnidentifiedImageError" "cannot identify image file").

Definition empty_fs : FS := {| files := ∅; stdin := None; stdout := [] |}.

(** A PNG header stored under a name that ends in .jpg. *)
Definition misnamed_png : Path := {| path_str := "photo.jpg"; suffix := ".jpg" |}.

Definition fs_with_misnamed_png : FS :=
  {| files := {["photo.jpg" := PNG_SIGNATURE]}; stdin := None; stdout := [] |}.

End io_vocabulary.

Section cli_vocabulary.
Import Config Cli.

(** A session in which the file holds an API key and nothing has been
    printed yet. *)
Definition session_with_key (key : string) : Session :=
  {| world := world_of ∅ (ConfigTable {["api-key" := TStr key]}); printed := [] |}.

End cli_vocabulary.

Section registry_io_vocabulary.
Import RegistryIO.

(** Every alias entry names a key of the template table. *)
Definition aliases_resolve_io (r : TemplateRegistry) : Prop :=
  ∀ a k, _alias_map r !! a = Some k → is_Some (_templates r !! k).

(** The registry once the built-in templates are registered. *)
Definition builtin_registry : TemplateRegistry :=
  (for_each Builtin.BUILTIN_TEMPLATES (λ t, register (of_builtin t))
     TemplateRegistry_init).2.

(** One round of the loop of [load_user_templates] on the record [tmpl_data]:
    its outcome and the registry it leaves. *)
Definition load_round (tmpl_data : pyval) : action TemplateRegistry unit :=
  let* template := lift (make_template tmpl_data) in
  register template.

(** The rounds on [records], started in [r], all return and lead to [r']. *)
Inductive rounds_return : TemplateRegistry → list pyval → TemplateRegistry → Prop :=
| rounds_nil r : rounds_return r [] r
| rounds_cons r r1 r' tmpl_data records :
    load_round tmpl_data r = (Ok tt, r1) →
    rounds_return r1 records r' →
    rounds_return r (tmpl_data :: records) r'.

(** The registry with [t] stored under the key [k]. *)
Definition with_template (r : TemplateRegistry) (k : key) (t : Template)
  : TemplateRegistry :=
  {| _templates := <[k := t]> (_templates r); _alias_map := _alias_map r |}.

(** A record [[template]] with a name, a prompt and one alias. *)
Definition neon_record : pyval :=
  PDict [("name", PStr "neon"); ("prompt", PStr "Add neon lights");
         ("aliases", PList [PStr "glow"])].

(** A record without [prompt]. *)
Definition promptless_record : pyval := PDict [("name", PStr "broken")].

(** A record with a name and a prompt whose [aliases] is the integer 5. *)
Definition bad_aliases_record : pyval :=
  PDict [("name", PStr "half"); ("prompt", PStr "Halve it"); ("aliases", PScalar 5)].

(** The directory of the configuration cannot be created. *)
Definition permission_denied : exn :=
  ForeignError "PermissionError" "[Errno 13] Permission denied".

(** The records the loop of [load_user_templates] goes through: what
    iterating [data.get("template", [])] yields. *)
Definition records_of (data : list (string * pyval)) : result (list pyval) :=
  iterate (default (PList []) (lookup_entry "template" data)).

(** A parsed file with the given records under [template]. *)
Definition file_of (records : list pyval) : TemplatesSource :=
  Parsed [("template", PList records)].

End registry_io_vocabulary.

Section gemini_io_vocabulary.
Import Providers GeminiIO.








End gemini_io_vocabulary.

(** * Properties *)

(** ** The repository's tests, replayed on the model *)

Section repository_tests.
Import Image Templates Builtin Registry Core.

Example test_detect_png :
  detect_format (PNG_SIGNATURE ++ replicate 100 x00) = Some PNG.
Proof. by vm_compute. Qed.

Example test_detect_jpeg :
  detect_format ([xff; xd8; xff; xe0] ++ replicate 100 x00) = Some JPEG.
Proof. by vm_compute. Qed.

Example test_detect_gif :
  detect_format (GIF87a ++ replicate 100 x00) = Some GIF ∧
  detect_format (GIF89a ++ replicate 100 x00) = Some GIF.
Proof. by vm_compute. Qed.

Example test_detect_webp :
  detect_format (RIFF ++ replicate 4 x00 ++ WEBP_TAG ++ replicate 100 x00) = Some WEBP.
Proof. by vm_compute. Qed.

Example test_detect_unknown : detect_format (replicate 400 x00) = None.
Proof. by vm_compute. Qed.

Example test_detect_too_short : detect_format [x89; x50; x4e] = None.
Proof. by vm_compute. Qed.

(** Three bytes of a JPEG header are below the length floor. *)
Example test_detect_three_byte_jpeg : detect_format JPEG_SIGNATURE = None.
Proof. by vm_compute. Qed.

Example test_format_from_extension :
  format_from_extension ".jpg" = Some JPEG ∧
  format_from_extension "jpeg" = Some JPEG ∧
  format_from_extension "webp" = Some WEBP ∧
  format_from_extension "gif" = Some GIF ∧
  format_from_extension "tiff" = None.
Proof. by vm_compute. Qed.

Example test_mime_types_and_extensions :
  map mime_type [PNG; JPEG; WEBP; GIF]
  = ["image/png"; "image/jpeg"; "image/webp"; "image/gif"] ∧
  map extension [PNG; JPEG; WEBP; GIF] = [".png"; ".jpg"; ".webp"; ".gif"].
Proof. by vm_compute. Qed.

Example test_get_unknown_returns_none : get TemplateRegistry_init "unknown" = Ok None.
Proof. by vm_compute. Qed.

Example test_all_templates_have_prompts :
  forallb (λ t, 10 <? String.length (prompt t))%nat BUILTIN_TEMPLATES = true.
Proof. by vm_compute. Qed.

(** The name and the three aliases of the first built-in reach one template. *)
Example test_builtin_aliases_share_template :
  map (get (registered_from TemplateRegistry_init BUILTIN_TEMPLATES))
      ["remove-bg"; "nobg"; "removebg"; "background-remove"]
  = replicate 4 (Ok (BUILTIN_TEMPLATES !! 0)).
Proof. by vm_compute. Qed.

Example test_literal_prompt_passthrough :
  (resolve_prompt Missing "make the image blue and sparkly" None).1
  = Ok "make the image blue and sparkly".
Proof. by vm_compute. Qed.

Example test_unknown_provider_raises :
  get_provider "unknown" []
  = Raise (ValueError "Unknown provider 'unknown'. Available: gemini").
Proof. by vm_compute. Qed.

End repository_tests.

(** ** Format detection *)

Section detect_format_properties.
Import Image.

Lemma take_eq_prefix (n : nat) (sig data : bytes) :
  length sig = n → take n data = sig ↔ sig `prefix_of` data.
Proof.
  intros <-. split.
  - intros Heq. exists (drop (length sig) data).
    pose proof (take_drop (length sig) data) as Htd.
    rewrite Heq in Htd. done.
  - intros [rest ->]. apply take_app_length.
Qed.

Lemma slice_eq_bytes_at (off n : nat) (sig data : bytes) :
  length sig = n → off + n ≤ length data →
  slice off (off + n) data = sig ↔ bytes_at off sig data.
Proof.
  intros <- Hlen. unfold slice, bytes_at.
  replace (off + length sig - off) with (length sig) by lia. split.
  - intros Heq. exists (take off data), (drop (length sig) (drop off data)).
    split; [rewrite length_take; lia|].
    pose proof (take_drop (length sig) (drop off data)) as Htd.
    rewrite Heq in Htd. rewrite Htd. by rewrite take_drop.
  - intros (pre & rest & <- & ->).
    rewrite drop_app_length. apply take_app_length.
Qed.

Lemma png_test_iff data : take 8 data = PNG_SIGNATURE ↔ looks_png data.
Proof. by apply take_eq_prefix. Qed.

Lemma jpeg_test_iff data : take 3 data = JPEG_SIGNATURE ↔ looks_jpeg data.
Proof. by apply take_eq_prefix. Qed.

Lemma webp_test_iff data :
  take 4 data = RIFF ∧ 12 ≤ length data ∧ slice 8 12 data = WEBP_TAG
  ↔ looks_webp data.
Proof.
  unfold looks_webp. rewrite (take_eq_prefix 4 RIFF data) by done.
  split; intros (H1 & H2 & H3); repeat split; try done.
  - by apply (slice_eq_bytes_at 8 4 WEBP_TAG data).
  - by apply (slice_eq_bytes_at 8 4 WEBP_TAG data).
Qed.

Lemma gif_test_iff data :
  take 6 data = GIF87a ∨ take 6 data = GIF89a ↔ looks_gif data.
Proof.
  unfold looks_gif.
  by rewrite (take_eq_prefix 6 GIF87a data), (take_eq_prefix 6 GIF89a data).
Qed.

(** C6: [detect_format] is a total, pure function of the bytes that answers
    none below 4 bytes, then PNG on the 8-byte PNG signature, else JPEG on the
    prefix FF D8 FF, else WEBP on a RIFF prefix with at least 12 bytes and WEBP
    at offsets 8-11, else GIF on a GIF87a or GIF89a prefix, else none. *)
Theorem detect_format_ordered_checks (data : bytes) :
  (length data < 4 → detect_format data = None) ∧
  (4 ≤ length data → looks_png data → detect_format data = Some PNG) ∧
  (4 ≤ length data → ¬ looks_png data → looks_jpeg data →
     detect_format data = Some JPEG) ∧
  (4 ≤ length data → ¬ looks_png data → ¬ looks_jpeg data → looks_webp data →
     detect_format data = Some WEBP) ∧
  (4 ≤ length data → ¬ looks_png data → ¬ looks_jpeg data → ¬ looks_webp data →
     looks_gif data → detect_format data = Some GIF) ∧
  (4 ≤ length data → ¬ looks_png data → ¬ looks_jpeg data → ¬ looks_webp data →
     ¬ looks_gif data → detect_format data = None).
Proof.
  pose proof (png_test_iff data) as Hpng.
  pose proof (jpeg_test_iff data) as Hjpeg.
  pose proof (webp_test_iff data) as Hwebp.
  pose proof (gif_test_iff data) as Hgif.
  unfold detect_format.
  repeat split; intros; repeat case_decide; try done; try lia; tauto.
Qed.

End detect_format_properties.

Section format_from_extension_properties.
Import Image.

Lemma mem_char_dot (c : ascii) : mem_char c "." = true ↔ c = "."%char.
Proof.
  simpl. case_decide; split; intros; try done.
Qed.

Lemma lstrip_dot_decompose (s : string) :
  ∃ k, s = dots k +:+ lstrip "." s ∧ ¬ starts_with_dot (lstrip "." s).
Proof.
  induction s as [|c s IH].
  - exists 0. split; [done|]. intros [s' Hs']. discriminate.
  - cbn [lstrip]. destruct (mem_char c ".") eqn:Hc.
    + apply mem_char_dot in Hc as ->.
      destruct IH as (k & Hk & Hnd). exists (S k). split; [|done].
      change (String "." s = String "." (dots k +:+ lstrip "." s)).
      by rewrite <- Hk.
    + exists 0. split; [done|]. intros [s' Hs']. injection Hs' as -> ->.
      by rewrite (proj2 (mem_char_dot ".")) in Hc.
Qed.

Lemma mapping_other (e : string) :
  e ∉ ["png"; "jpg"; "jpeg"; "webp"; "gif"] → mapping !! e = None.
Proof.
  intros Hnot. unfold mapping.
  rewrite !lookup_insert_ne, lookup_empty; [done|..];
    intros <-; apply Hnot; set_solver.
Qed.

(** C9: [format_from_extension] lowercases its argument, drops the leading dots
    and looks the rest up: png gives PNG, jpg and jpeg give JPEG, webp gives WEBP,
    gif gives GIF, anything else none; it is total.  In particular "PNG", "png"
    and ".png" give PNG and "bmp" gives none. *)
Theorem format_from_extension_table :
  (∀ ext : string, ∃ (k : nat) (e : string),
      lower ext = dots k +:+ e ∧ ¬ starts_with_dot e ∧
      (e = "png" → format_from_extension ext = Some PNG) ∧
      (e = "jpg" ∨ e = "jpeg" → format_from_extension ext = Some JPEG) ∧
      (e = "webp" → format_from_extension ext = Some WEBP) ∧
      (e = "gif" → format_from_extension ext = Some GIF) ∧
      (e ∉ ["png"; "jpg"; "jpeg"; "webp"; "gif"] → format_from_extension ext = None)) ∧
  format_from_extension "PNG" = Some PNG ∧
  format_from_extension "png" = Some PNG ∧
  format_from_extension ".png" = Some PNG ∧
  format_from_extension "bmp" = None.
Proof.
  split; [|by vm_compute].
  intros ext. unfold format_from_extension.
  destruct (lstrip_dot_decompose (lower ext)) as (k & Hk & Hnd).
  exists k, (lstrip "." (lower ext)).
  split_and!; try done.
  - by intros ->.
  - by intros [-> | ->].
  - by intros ->.
  - by intros ->.
  - apply mapping_other.
Qed.

End format_from_extension_properties.

(** ** Template registry *)

Section registry_properties.
Import Templates Builtin Registry Core.

Lemma alias_loop_lookup (n : string) (als : list string) (m : gmap string string)
    (x : string) :
  foldl (λ alias_map alias, <[alias := n]> alias_map) m als !! x
  = if decide (x ∈ als) then Some n else m !! x.
Proof.
  revert m. induction als as [|a als IH]; intros m.
  - by rewrite decide_False by apply not_elem_of_nil.
  - cbn [foldl]. rewrite IH.
    destruct (decide (x ∈ als)) as [Hin|Hnin].
    + by rewrite decide_True by (rewrite elem_of_cons; tauto).
    + destruct (decide (x = a)) as [->|Hne].
      * rewrite decide_True by (rewrite elem_of_cons; tauto).
        by rewrite lookup_insert_eq.
      * rewrite decide_False by (rewrite elem_of_cons; tauto).
        by rewrite lookup_insert_ne.
Qed.

Lemma register_templates (r : TemplateRegistry) (t : Template) :
  _templates (register r t) = <[name t := t]> (_templates r).
Proof. done. Qed.

Lemma register_alias_lookup (r : TemplateRegistry) (t : Template) (x : string) :
  _alias_map (register r t) !! x
  = if decide (x ∈ aliases t) then Some (name t) else _alias_map r !! x.
Proof. apply alias_loop_lookup. Qed.

Lemma register_aliases_resolve (r : TemplateRegistry) (t : Template) :
  aliases_resolve r → aliases_resolve (register r t).
Proof.
  intros Hr a n. rewrite register_alias_lookup, register_templates.
  case_decide.
  - intros [= <-]. rewrite lookup_insert_eq. eauto.
  - intros Ha. destruct (decide (name t = n)) as [->|Hne].
    + rewrite lookup_insert_eq. eauto.
    + rewrite lookup_insert_ne by done. eauto.
Qed.

Lemma registered_from_aliases_resolve (ts : list Template) (r0 : TemplateRegistry) :
  aliases_resolve r0 → aliases_resolve (registered_from r0 ts).
Proof.
  revert r0. induction ts as [|t ts IH]; intros r0 H0; [done|].
  apply IH. by apply register_aliases_resolve.
Qed.

Lemma init_aliases_resolve : aliases_resolve TemplateRegistry_init.
Proof. intros a n. simpl. by rewrite lookup_empty. Qed.

(** What [get] answers, by cases on the two tables. *)
Lemma get_by_name (r : TemplateRegistry) (s : string) (t : Template) :
  _templates r !! s = Some t → get r s = Ok (Some t).
Proof.
  intros H. unfold get, getitem. rewrite H.
  case_decide as Hd; [done|]. destruct Hd. eauto.
Qed.

Lemma get_by_alias (r : TemplateRegistry) (s n : string) :
  _templates r !! s = None → _alias_map r !! s = Some n →
  get r s = match _templates r !! n with
            | Some t => Ok (Some t)
            | None => Raise (KeyError n)
            end.
Proof.
  intros H1 H2. unfold get, getitem. rewrite H1, H2.
  case_decide as Hd; [by destruct Hd|].
  case_decide as Hd'; [by destruct (_templates r !! n)|]. destruct Hd'. eauto.
Qed.

Lemma get_unknown (r : TemplateRegistry) (s : string) :
  _templates r !! s = None → _alias_map r !! s = None → get r s = Ok None.
Proof.
  intros H1 H2. unfold get. rewrite H1, H2.
  case_decide as Hd; [by destruct Hd|].
  case_decide as Hd'; [by destruct Hd'|done].
Qed.

Lemma get_total (r : TemplateRegistry) (s : string) :
  aliases_resolve r → ∃ o, get r s = Ok o.
Proof.
  intros Hr. destruct (_templates r !! s) as [t|] eqn:Ht.
  - exists (Some t). by apply get_by_name.
  - destruct (_alias_map r !! s) as [n|] eqn:Ha.
    + rewrite (get_by_alias r s n) by done.
      destruct (Hr s n Ha) as [t ->]. eauto.
    + exists None. by apply get_unknown.
Qed.

(** A table with a dangling alias makes [get] raise: the invariant is what
    keeps [get] from failing. *)
Example get_dangling_alias_raises :
  get {| _templates := ∅; _alias_map := {["a" := "x"]} |} "a" = Raise (KeyError "x").
Proof. by vm_compute. Qed.

(** C10: in every registry built from the empty one by a sequence of
    [register] calls, each alias entry points to a registered name, and [get]
    returns a template or none for every argument, never raising. *)
Theorem register_keeps_aliases_resolvable (ts : list Template) :
  aliases_resolve (registered_from TemplateRegistry_init ts) ∧
  ∀ s : string, ∃ o, get (registered_from TemplateRegistry_init ts) s = Ok o.
Proof.
  assert (aliases_resolve (registered_from TemplateRegistry_init ts)) as H
    by apply registered_from_aliases_resolve, init_aliases_resolve.
  split; [done|]. intros s. by apply get_total.
Qed.

(** C5: registering a template one of whose aliases is owned by an earlier
    template makes the alias entry point to the new template's name, so that
    [get] on the alias yields the new template (unless the string is itself a
    template name, which [get] looks up first); the earlier template is still
    returned for its own name, and no name-keyed entry changes except the one
    under the new template's name. *)
Theorem register_alias_collision (r : TemplateRegistry) (old new : Template)
    (a : string) :
  _templates r !! name old = Some old →
  _alias_map r !! a = Some (name old) →
  a ∈ aliases new →
  _alias_map (register r new) !! a = Some (name new) ∧
  (_templates (register r new) !! a = None → get (register r new) a = Ok (Some new)) ∧
  (name new ≠ name old → get (register r new) (name old) = Ok (Some old)) ∧
  (∀ n, n ≠ name new → _templates (register r new) !! n = _templates r !! n).
Proof.
  intros Hold Halias Hin.
  assert (_alias_map (register r new) !! a = Some (name new)) as Hnew.
  { rewrite register_alias_lookup. by rewrite decide_True. }
  split_and!.
  - done.
  - intros Hfree. rewrite (get_by_alias _ a (name new)) by done.
    by rewrite register_templates, lookup_insert_eq.
  - intros Hne. apply get_by_name.
    by rewrite register_templates, lookup_insert_ne.
  - intros n Hne. by rewrite register_templates, lookup_insert_ne.
Qed.

Lemma register_alias_collision_witness :
  let r := register TemplateRegistry_init demo_old in
  _alias_map (register r demo_new) !! "draw" = Some "ink" ∧
  (_templates (register r demo_new) !! "draw" = None →
     get (register r demo_new) "draw" = Ok (Some demo_new)) ∧
  ("ink" ≠ "sketch" → get (register r demo_new) "sketch" = Ok (Some demo_old)) ∧
  (∀ n, n ≠ "ink" →
     _templates (register r demo_new) !! n = _templates r !! n).
Proof.
  apply (register_alias_collision
           (register TemplateRegistry_init demo_old) demo_old demo_new "draw").
  - vm_compute. reflexivity.
  - vm_compute. reflexivity.
  - simpl. constructor.
Defined.

(** *** Loading the user's templates *)

Lemma try_except_pass {St} (body : action St unit) (s : St) :
  try_except body (λ _, ret tt) s = (Ok tt, (body s).2).
Proof. unfold try_except, ret. by destruct (body s) as [[[]|e] s']. Qed.

Lemma load_loop_state (data : list TemplateData.t) (r : TemplateRegistry) :
  (for_each data (λ tmpl_data,
     let* template := lift (template_of_data tmpl_data) in
     modify (λ self, register self template)) r).2
  = registered_from r (accepted_prefix data).
Proof.
  revert r. induction data as [|d data IH]; intros r; [done|].
  cbn [for_each accepted_prefix]. unfold bind at 1. unfold bind at 1.
  unfold lift, modify. destruct (template_of_data d) as [t|e]; [|done].
  rewrite IH. done.
Qed.

Lemma load_user_templates_outcome (f : TemplatesFile) (r : TemplateRegistry) :
  load_user_templates f r = (Ok tt, registered_from r (accepted f)).
Proof.
  destruct f as [|e|data]; cbn [load_user_templates accepted].
  - done.
  - by rewrite try_except_pass.
  - by rewrite try_except_pass, load_loop_state.
Qed.

(** *** Prompt resolution *)

Lemma registered_aliases_resolve (r : TemplateRegistry) :
  registered r → aliases_resolve r.
Proof.
  intros [ts ->]. apply registered_from_aliases_resolve, init_aliases_resolve.
Qed.

Lemma get_registry_fresh (f : TemplatesFile) :
  get_registry f None
  = (Ok (registered_from TemplateRegistry_init (BUILTIN_TEMPLATES ++ accepted f)),
     Some (registered_from TemplateRegistry_init (BUILTIN_TEMPLATES ++ accepted f))).
Proof.
  unfold get_registry. rewrite load_user_templates_outcome.
  unfold registered_from. by rewrite foldl_app.
Qed.

End registry_properties.

(** ** Provider and orchestration *)

Section provider_properties.
Import Providers Core.

Lemma get_client_missing (env : Env) (self : GeminiProvider) :
  _client self = None → truthy (gemini_api_key (settings env)) = false →
  _get_client env self = (Raise (ProviderError key_not_configured None), self).
Proof.
  intros Hc Hk. unfold _get_client, bind, get_state. rewrite Hc.
  destruct (gemini_api_key (settings env)) as [key|]; [|done].
  by rewrite Hk.
Qed.

Lemma get_client_available (env : Env) (self : GeminiProvider) :
  has_client env self →
  ∃ c, _get_client env self = (Ok c, {| _client := Some c; events := events self |}).
Proof.
  intros Hhas. unfold _get_client, bind, get_state.
  destruct self as [[c|] evs]; simpl in *.
  - by exists c.
  - destruct Hhas as [[c Hc]|Hk]; [done|].
    destruct (gemini_api_key (settings env)) as [key|]; [|done].
    change (if decide (key = "") then false else true) with (truthy (Some key)).
    rewrite Hk. by exists {| api_key := key |}.
Qed.

Ltac run_provider :=
  unfold edit, generate, combine, send, log, wrap_foreign;
  unfold bind, try_except, modify, lift, ret, raise;
  cbn beta iota.

Lemma combine_parts_eq (images : list image) :
  map (λ '(image_data, mime_type),
         from_bytes image_data (mime_or_detect image_data mime_type)) images
  = map (λ im : image, from_bytes im.1 (mime_or_detect im.1 im.2)) images.
Proof. apply map_ext. by intros [??]. Qed.


Lemma combine_state (env : Env) (images : list image) (prompt : string)
    (self : GeminiProvider) :
  has_client env self →
  ∃ c, (combine env images prompt self).2
       = {| _client := Some c;
            events := events self ++ [Invoked (CallCombine images prompt);
                                      Sent (combine_request env images prompt)] |}.
Proof.
  intros Hhas.
  destruct (get_client_available env (entered self (CallCombine images prompt)))
    as [c Hc]; [done|].
  exists c. run_provider. unfold entered in *.
  rewrite Hc. cbn [_client events]. rewrite combine_parts_eq.
  fold (combine_request env images prompt).
  rewrite <- app_assoc. cbn [app].
  repeat case_match; simplify_eq; done.
Qed.


Lemma get_provider_known (provider_name : string) (evs : list Event) :
  provider_name ∈ providers →
  get_provider provider_name evs = Ok {| _client := None; events := evs |}.
Proof. intros Hin. unfold get_provider. by rewrite decide_True. Qed.

Lemma combine_images_delegates (env : Env) (images : list image) (prompt : string)
    (provider_name : string) (evs : list Event) :
  2 ≤ length images → provider_name ∈ providers →
  combine_images env images prompt provider_name evs
  = ((combine env images prompt {| _client := None; events := evs |}).1,
     events (combine env images prompt {| _client := None; events := evs |}).2).
Proof.
  intros Hlen Hin. unfold combine_images.
  rewrite decide_False by lia. rewrite get_provider_known by done.
  by destruct (combine env images prompt _) as [r p].
Qed.


Lemma mime_or_detect_cases (data : bytes) (hint : option string) :
  (∀ h, hint = Some h → mime_or_detect data hint = h) ∧
  (∀ fmt, hint = None → Image.detect_format data = Some fmt →
     mime_or_detect data hint = Image.mime_type fmt) ∧
  (hint = None → Image.detect_format data = None →
     mime_or_detect data hint = "image/png").
Proof.
  unfold mime_or_detect. split_and!.
  - by intros h ->.
  - by intros fmt -> ->.
  - by intros -> ->.
Qed.

(** C3 (as the code has it): [combine_images] hands the image list to the
    provider as it received it, MIME hints absent or not.  It is the provider's
    [combine] that gives every image part of the outgoing request a MIME type:
    the hint when there is one, else the MIME type of the detected format, else
    image/png. *)
Theorem combine_mime_filled_by_provider (env : Env) (images : list image)
    (prompt : string) (evs : list Event) :
  2 ≤ length images →
  truthy (gemini_api_key (settings env)) = true →
  ∃ parts,
    (combine_images env images prompt "gemini" evs).2
    = evs ++ [Invoked (CallCombine images prompt);
              Sent {| req_model := model_name env;
                      req_contents := Content (parts ++ [from_text prompt]);
                      response_modalities := ["IMAGE"; "TEXT"] |}] ∧
    length parts = length images ∧
    ∀ i data hint, images !! i = Some (data, hint) →
      ∃ m, parts !! i = Some (from_bytes data m) ∧
           (∀ h, hint = Some h → m = h) ∧
           (∀ fmt, hint = None → Image.detect_format data = Some fmt →
              m = Image.mime_type fmt) ∧
           (hint = None → Image.detect_format data = None → m = "image/png").
Proof.
  intros Hlen Hkey.
  exists (map (λ im : image, from_bytes im.1 (mime_or_detect im.1 im.2)) images).
  split_and!.
  - rewrite combine_images_delegates; [|done|by apply elem_of_cons; left].
    destruct (combine_state env images prompt {| _client := None; events := evs |})
      as [c ->]; [by right|]. done.
  - apply length_map.
  - intros i data hint Hi. exists (mime_or_detect data hint). split.
    + by rewrite list_lookup_fmap, Hi.
    + apply mime_or_detect_cases.
Qed.

Lemma combine_mime_filled_by_provider_witness :
  ∃ parts,
    (combine_images demo_env two_unhinted_images "blend" "gemini" []).2
    = [] ++ [Invoked (CallCombine two_unhinted_images "blend");
             Sent {| req_model := model_name demo_env;
                     req_contents := Content (parts ++ [from_text "blend"]);
                     response_modalities := ["IMAGE"; "TEXT"] |}] ∧
    length parts = length two_unhinted_images ∧
    ∀ i data hint, two_unhinted_images !! i = Some (data, hint) →
      ∃ m, parts !! i = Some (from_bytes data m) ∧
           (∀ h, hint = Some h → m = h) ∧
           (∀ fmt, hint = None → Image.detect_format data = Some fmt →
              m = Image.mime_type fmt) ∧
           (hint = None → Image.detect_format data = None → m = "image/png").
Proof.
  apply (combine_mime_filled_by_provider demo_env two_unhinted_images "blend" []).
  - simpl. lia.
  - reflexivity.
Defined.

(** The provider is entered with both MIME hints absent: the orchestrator has
    not filled them in. *)
Lemma combine_images_hands_absent_mime_to_provider :
  (combine_images demo_env two_unhinted_images "blend" "gemini" []).2 !! 0
  = Some (Invoked (CallCombine [(Image.PNG_SIGNATURE, None);
                                ([xff; xd8; xff; xe0], None)] "blend")).
Proof. by vm_compute. Qed.

(** With a client at hand, [_get_client] succeeds once the method is entered. *)
Lemma run_call_with_client (env : Env) (call : Call) (self : GeminiProvider) :
  has_client env self →
  ∃ c, _get_client env (entered self call)
       = (Ok c, {| _client := Some c; events := events (entered self call) |}).
Proof. intros Hhas. by apply get_client_available. Qed.

Ltac with_service_answer Hhas Hsvc :=
  match goal with
  | |- context [run_call ?env ?call ?self] =>
      destruct (run_call_with_client env call self Hhas) as [c Hc];
      destruct call; unfold run_call; run_provider; unfold entered in *;
      rewrite Hc; cbn [_client events]; rewrite Hsvc; cbn beta iota
  end.

Lemma run_call_service_raises (env : Env) (call : Call) (self : GeminiProvider)
    (e : exn) :
  has_client env self →
  (∀ c req, generate_content env c req = Raise e) →
  (run_call env call self).1
  = Raise (if isinstance_ProviderError e then e
           else ProviderError ("Gemini API error: " +:+ exn_str e) (Some e)).
Proof.
  intros Hhas Hsvc.
  with_service_answer Hhas Hsvc; by destruct (isinstance_ProviderError e).
Qed.

Lemma run_call_no_candidates (env : Env) (call : Call) (self : GeminiProvider) :
  has_client env self →
  (∀ c req, generate_content env c req = Ok {| candidates := [] |}) →
  (run_call env call self).1
  = Raise (ProviderError "Gemini API error: list index out of range"
             (Some (IndexError "list index out of range"))).
Proof.
  intros Hhas Hsvc. with_service_answer Hhas Hsvc; done.
Qed.

Lemma run_call_no_parts (env : Env) (call : Call) (self : GeminiProvider) :
  has_client env self →
  (∀ c req, generate_content env c req = Ok {| candidates := [{| parts := [] |}] |}) →
  (run_call env call self).1
  = Raise (ProviderError "Gemini response contained no image data" None).
Proof.
  intros Hhas Hsvc. with_service_answer Hhas Hsvc; done.
Qed.

Lemma run_call_missing_key (env : Env) (call : Call) (self : GeminiProvider) :
  _client self = None → truthy (gemini_api_key (settings env)) = false →
  run_call env call self
  = (Raise (ProviderError key_not_configured None), entered self call).
Proof.
  intros Hc Hk.
  pose proof (get_client_missing env (entered self call) Hc Hk) as Hget.
  destruct call; unfold run_call; run_provider; unfold entered in *;
    by rewrite Hget.
Qed.




End provider_properties.

(** * Further properties of the code *)

(** ** Format detection and extensions *)

Section image_further.
Import Image.

Lemma take_app_sig (n : nat) (sig l k : bytes) :
  length sig = n → take n l = sig → take n (l ++ k) = sig.
Proof.
  intros Hn Ht. rewrite take_app_le; [done|].
  rewrite <- Hn, <- Ht, length_take. lia.
Qed.

Lemma take_head (n : nat) (b : byte) (sig l : bytes) :
  take (S n) l = b :: sig → head l = Some b.
Proof. destruct l; simpl; congruence. Qed.

Lemma take_app_head_ne (n : nat) (b b' : byte) (sig l k : bytes) :
  head l = Some b' → b ≠ b' → take (S n) (l ++ k) ≠ b :: sig.
Proof. destruct l; simpl; congruence. Qed.

Lemma slice_app (i j : nat) (l k : bytes) :
  j ≤ length l → slice i j (l ++ k) = slice i j l.
Proof.
  intros Hj. unfold slice.
  destruct (decide (i ≤ j)) as [Hij|Hij].
  - rewrite drop_app_le by lia. rewrite take_app_le; [done|].
    rewrite length_drop. lia.
  - by replace (j - i) with 0 by lia.
Qed.

(** X1: [detect_format] reads the first 12 bytes only: the answer for the
    first 12 bytes of the data is the answer for the data. *)
Theorem detect_format_first_12_bytes (data : bytes) :
  detect_format (take 12 data) = detect_format data.
Proof.
  destruct (decide (length data ≤ 12)) as [Hle|Hgt].
  - by rewrite take_ge.
  - unfold detect_format, slice. rewrite !take_take. cbn [Nat.min].
    rewrite (take_drop_commute (take 12 data)), take_take. cbn [Nat.add Nat.min].
    rewrite (take_drop_commute data). cbn [Nat.add Nat.sub].
    rewrite length_take, (Nat.min_l 12 (length data)) by lia.
    change (4 `min` 4) with 4.
    assert ((take 4 data = RIFF ∧ 12 ≤ 12 ∧ drop 8 (take 12 data) = WEBP_TAG)
            ↔ (take 4 data = RIFF ∧ 12 ≤ length data
               ∧ drop 8 (take 12 data) = WEBP_TAG)) as Hwebp
      by (split; intros (? & ? & ?); split_and!; (done || lia)).
    repeat case_decide; try done; try lia; tauto.
Qed.

(** X2: appending bytes to data whose format was detected does not change
    the answer. *)
Theorem detect_format_append (data rest : bytes) (f : ImageFormat) :
  detect_format data = Some f → detect_format (data ++ rest) = Some f.
Proof.
  unfold detect_format. intros H.
  destruct (decide (length data < 4)) as [|Hlen]; [done|].
  rewrite decide_False by (rewrite length_app; lia).
  destruct (decide (take 8 data = PNG_SIGNATURE)) as [Hpng|Hpng].
  { by rewrite decide_True by (by apply take_app_sig). }
  destruct (decide (take 3 data = JPEG_SIGNATURE)) as [Hj|Hj].
  { pose proof (take_head _ _ _ _ Hj) as Hhd.
    rewrite decide_False by (by eapply take_app_head_ne).
    by rewrite decide_True by (by apply take_app_sig). }
  destruct (decide (take 4 data = RIFF ∧ 12 ≤ length data
                    ∧ slice 8 12 data = WEBP_TAG)) as [(Hr & Hl & Hw)|Hnw].
  { pose proof (take_head _ _ _ _ Hr) as Hhd.
    rewrite decide_False by (by eapply take_app_head_ne).
    rewrite decide_False by (by eapply take_app_head_ne).
    rewrite decide_True; [done|]. split_and!.
    - by apply take_app_sig.
    - rewrite length_app. lia.
    - by rewrite slice_app. }
  destruct (decide (take 6 data = GIF87a ∨ take 6 data = GIF89a)) as [Hg|]; [|done].
  assert (head data = Some x47) as Hhd by (by destruct Hg as [Hg|Hg]; eapply take_head).
  rewrite decide_False by (by eapply take_app_head_ne).
  rewrite decide_False by (by eapply take_app_head_ne).
  rewrite decide_False.
  2:{ intros (Hr & _). by eapply take_app_head_ne in Hr. }
  rewrite decide_True; [done|].
  destruct Hg as [Hg|Hg]; [left|right]; by apply take_app_sig.
Qed.

Lemma detect_format_append_witness :
  detect_format ([xff; xd8; xff; xe0] ++ [x00; x10]) = Some JPEG.
Proof.
  apply (detect_format_append [xff; xd8; xff; xe0] [x00; x10] JPEG).
  reflexivity.
Defined.

(** X3: the extension and the enum value of every format are read back as
    that format. *)
Theorem format_from_extension_roundtrip (f : ImageFormat) :
  format_from_extension (extension f) = Some f ∧
  format_from_extension (value f) = Some f.
Proof. by destruct f; vm_compute. Qed.

Lemma lower_char_idemp (c : ascii) : lower_char (lower_char c) = lower_char c.
Proof. by destruct c as [[] [] [] [] [] [] [] []]; vm_compute. Qed.

Lemma lower_idemp (s : string) : lower (lower s) = lower s.
Proof.
  induction s as [|c s IH]; [done|].
  cbn [lower]. by rewrite lower_char_idemp, IH.
Qed.

Lemma lower_dots (k : nat) (s : string) : lower (dots k +:+ s) = dots k +:+ lower s.
Proof.
  induction k as [|k IH]; [done|].
  change (dots (S k) +:+ s) with (String "." (dots k +:+ s)).
  change (dots (S k) +:+ lower s) with (String "." (dots k +:+ lower s)).
  cbn [lower]. by rewrite IH.
Qed.

Lemma lstrip_dots (k : nat) (s : string) : lstrip "." (dots k +:+ s) = lstrip "." s.
Proof.
  induction k as [|k IH]; [done|].
  change (dots (S k) +:+ s) with (String "." (dots k +:+ s)).
  cbn [lstrip]. by rewrite (proj2 (mem_char_dot ".")).
Qed.

(** X4: [format_from_extension] does not see leading dots, however many, nor
    the case of the letters: lowering the argument first, or putting dots in
    front of it, changes nothing. *)
Theorem format_from_extension_normalises (k : nat) (ext : string) :
  format_from_extension (dots k +:+ ext) = format_from_extension ext ∧
  format_from_extension (lower ext) = format_from_extension ext.
Proof.
  unfold format_from_extension. split.
  - by rewrite lower_dots, lstrip_dots.
  - by rewrite lower_idemp.
Qed.

End image_further.

(** ** Template registry *)

Section registry_further.
Import Templates Builtin Registry Core.

Lemma registry_eq (r1 r2 : TemplateRegistry) :
  _templates r1 = _templates r2 → _alias_map r1 = _alias_map r2 → r1 = r2.
Proof. destruct r1, r2. simpl. by intros -> ->. Qed.

(** X5: registering the same template twice in a row is the same as
    registering it once. *)
Theorem register_idempotent (r : TemplateRegistry) (t : Template) :
  register (register r t) t = register r t.
Proof.
  apply registry_eq.
  - rewrite !register_templates. apply insert_insert_eq.
  - apply map_eq. intros x. rewrite !register_alias_lookup.
    by case_decide.
Qed.

(** X6: right after [register], the template is found under its name, and
    under each of its aliases that is not itself a key of the name table. *)
Theorem register_then_get (r : TemplateRegistry) (t : Template) (n : string) :
  n ∈ all_names t →
  n = name t ∨ _templates (register r t) !! n = None →
  get (register r t) n = Ok (Some t).
Proof.
  intros Hn Hfree.
  assert (_templates (register r t) !! name t = Some t) as Hstored
    by (by rewrite register_templates, lookup_insert_eq).
  destruct (decide (n = name t)) as [->|Hne].
  - by apply get_by_name.
  - destruct Hfree as [|Hfree]; [done|].
    apply elem_of_cons in Hn as [|Hn]; [done|].
    rewrite (get_by_alias _ n (name t)); [by rewrite Hstored | done |].
    rewrite register_alias_lookup. by rewrite decide_True.
Qed.

Lemma register_then_get_witness :
  get (register TemplateRegistry_init demo_old) "pencil" = Ok (Some demo_old).
Proof.
  apply (register_then_get TemplateRegistry_init demo_old "pencil").
  - apply elem_of_cons. right. apply elem_of_cons. right. apply elem_of_cons. by left.
  - right. reflexivity.
Defined.

(** X7: an alias entry outlives the template that brought it.  When a name is
    registered again, with whatever aliases, every alias that pointed to that
    name still resolves, now to the new template. *)
Theorem stale_alias_follows_replacement (r : TemplateRegistry) (new : Template)
    (a : string) :
  _alias_map r !! a = Some (name new) →
  _templates (register r new) !! a = None →
  _alias_map (register r new) !! a = Some (name new) ∧
  get (register r new) a = Ok (Some new).
Proof.
  intros Ha Hfree.
  assert (_alias_map (register r new) !! a = Some (name new)) as Ha'.
  { rewrite register_alias_lookup. by case_decide. }
  split; [done|].
  rewrite (get_by_alias _ a (name new)) by done.
  by rewrite register_templates, lookup_insert_eq.
Qed.

Lemma stale_alias_follows_replacement_witness :
  _alias_map (register (register TemplateRegistry_init demo_old) demo_replacement)
    !! "pencil" = Some "sketch" ∧
  get (register (register TemplateRegistry_init demo_old) demo_replacement) "pencil"
  = Ok (Some demo_replacement).
Proof.
  apply (stale_alias_follows_replacement
           (register TemplateRegistry_init demo_old) demo_replacement "pencil");
    reflexivity.
Defined.

Lemma register_names_keyed (r : TemplateRegistry) (t : Template) :
  names_keyed r → names_keyed (register r t).
Proof.
  intros Hr n t'. rewrite register_templates.
  destruct (decide (name t = n)) as [<-|Hne].
  - rewrite lookup_insert_eq. by intros [= <-].
  - rewrite lookup_insert_ne by done. apply Hr.
Qed.

Lemma registered_from_names_keyed (ts : list Template) (r0 : TemplateRegistry) :
  names_keyed r0 → names_keyed (registered_from r0 ts).
Proof.
  revert r0. induction ts as [|t ts IH]; intros r0 H0; [done|].
  apply IH. by apply register_names_keyed.
Qed.

Lemma init_names_keyed : names_keyed TemplateRegistry_init.
Proof. intros n t. simpl. by rewrite lookup_empty. Qed.

(** X8: in a registry built by [register] calls, whatever [get] returns for a
    string is the template stored under its own name, reached because the
    string is that name or because the alias table maps the string to it. *)
Theorem get_returns_stored_template (ts : list Template) (s : string) (t : Template) :
  get (registered_from TemplateRegistry_init ts) s = Ok (Some t) →
  _templates (registered_from TemplateRegistry_init ts) !! name t = Some t ∧
  (name t = s ∨ _alias_map (registered_from TemplateRegistry_init ts) !! s = Some (name t)).
Proof.
  set (r := registered_from TemplateRegistry_init ts).
  assert (names_keyed r) as Hkeys
    by apply registered_from_names_keyed, init_names_keyed.
  intros Hget.
  destruct (_templates r !! s) as [t'|] eqn:Hs.
  - rewrite (get_by_name r s t' Hs) in Hget. injection Hget as ->.
    pose proof (Hkeys s t Hs) as Hname. rewrite Hname. split; [done | by left].
  - destruct (_alias_map r !! s) as [n|] eqn:Ha.
    + rewrite (get_by_alias r s n Hs Ha) in Hget.
      destruct (_templates r !! n) as [t'|] eqn:Hn; [|done].
      injection Hget as ->. pose proof (Hkeys n t Hn) as Hname.
      rewrite Hname. split; [done | by right].
    + by rewrite (get_unknown r s Hs Ha) in Hget.
Qed.

Lemma get_returns_stored_template_witness :
  _templates (registered_from TemplateRegistry_init [demo_old; demo_new])
    !! name demo_new = Some demo_new ∧
  (name demo_new = "draw" ∨
   _alias_map (registered_from TemplateRegistry_init [demo_old; demo_new]) !! "draw"
   = Some (name demo_new)).
Proof.
  apply (get_returns_stored_template [demo_old; demo_new] "draw" demo_new).
  by vm_compute.
Defined.

Lemma resolve_prompt_state (f : TemplatesFile) (s : string)
    (g : option TemplateRegistry) :
  (resolve_prompt f s g).2 = (get_registry f g).2.
Proof.
  unfold resolve_prompt, bind, lift, ret.
  destruct (get_registry f g) as [[r|e] g']; [|done].
  destruct (get r s) as [[t|]|e]; done.
Qed.

Lemma resolve_prompt_initialised (f : TemplatesFile) (s : string)
    (r : TemplateRegistry) :
  resolve_prompt f s (Some r)
  = (match get r s with
     | Ok (Some t) => Ok (prompt t)
     | Ok None => Ok s
     | Raise e => Raise e
     end, Some r).
Proof.
  unfold resolve_prompt, bind, lift, ret. cbn [get_registry].
  destruct (get r s) as [[t|]|e]; done.
Qed.

(** X9: the registry is built at the first [resolve_prompt], from the
    built-ins followed by what the user's file yields at that moment; later
    calls answer from that registry, whatever the file has become. *)
Theorem registry_initialised_once (f f' : TemplatesFile) (s1 s2 : string) :
  (resolve_prompt f s1 None).2
  = Some (registered_from TemplateRegistry_init (BUILTIN_TEMPLATES ++ accepted f)) ∧
  resolve_prompt f' s2 (resolve_prompt f s1 None).2
  = resolve_prompt f s2 (resolve_prompt f s1 None).2.
Proof.
  rewrite resolve_prompt_state, get_registry_fresh. cbn [snd].
  split; [done|]. by rewrite !resolve_prompt_initialised.
Qed.

Lemma registered_from_other_names (ts : list Template) (r : TemplateRegistry)
    (n : string) :
  (∀ t, t ∈ ts → name t ≠ n) →
  _templates (registered_from r ts) !! n = _templates r !! n.
Proof.
  revert r. induction ts as [|t ts IH]; intros r Hts; [done|].
  cbn [registered_from foldl]. fold (registered_from (register r t) ts).
  rewrite IH by (intros t' Ht'; apply Hts; by apply elem_of_cons; right).
  rewrite register_templates, lookup_insert_ne; [done|].
  apply Hts. apply elem_of_cons. by left.
Qed.

Lemma registered_from_app (r : TemplateRegistry) (ts1 ts2 : list Template) :
  registered_from r (ts1 ++ ts2) = registered_from (registered_from r ts1) ts2.
Proof. apply foldl_app. Qed.

Lemma registered_from_last (r : TemplateRegistry) (pre post : list Template)
    (u : Template) :
  (∀ v, v ∈ post → name v ≠ name u) →
  _templates (registered_from r (pre ++ u :: post)) !! name u = Some u.
Proof.
  intros Hpost. rewrite registered_from_app.
  cbn [registered_from foldl].
  fold (registered_from (register (foldl register r pre) u) post).
  rewrite registered_from_other_names by done.
  by rewrite register_templates, lookup_insert_eq.
Qed.

Lemma builtin_stored (b : Template) :
  b ∈ BUILTIN_TEMPLATES →
  _templates (registered_from TemplateRegistry_init BUILTIN_TEMPLATES) !! name b
  = Some b.
Proof.
  intros Hb. unfold BUILTIN_TEMPLATES in Hb.
  repeat (apply elem_of_cons in Hb as [->|Hb]; [by vm_compute|]).
  by apply elem_of_nil in Hb.
Qed.

(** X10: whatever the user's file holds, the name of a built-in template
    resolves to the built-in prompt as long as no accepted user record carries
    that name; user aliases cannot take a built-in name over. *)
Theorem builtin_name_resolves (f : TemplatesFile) (b : Template) :
  b ∈ BUILTIN_TEMPLATES →
  (∀ u, u ∈ accepted f → name u ≠ name b) →
  (resolve_prompt f (name b) None).1 = Ok (prompt b).
Proof.
  intros Hb Huser.
  unfold resolve_prompt, bind, lift. rewrite get_registry_fresh.
  rewrite (get_by_name _ (name b) b); [done|].
  rewrite registered_from_app, registered_from_other_names by done.
  by apply builtin_stored.
Qed.

Lemma builtin_name_resolves_witness :
  (resolve_prompt
     (Loaded [TemplateData.Build (Some "neon") (Some "Add neon lights") None
                (Some ["sepia"; "glow"])])
     "sepia" None).1
  = Ok ("Convert this image to sepia tone. "
        +:+ "Apply a warm brownish tint throughout, "
        +:+ "creating a classic, antique photograph appearance.").
Proof.
  apply (builtin_name_resolves
           (Loaded [TemplateData.Build (Some "neon") (Some "Add neon lights") None
                      (Some ["sepia"; "glow"])])
           {| name := "sepia";
              prompt := "Convert this image to sepia tone. "
                        +:+ "Apply a warm brownish tint throughout, "
                        +:+ "creating a classic, antique photograph appearance.";
              description := "Apply sepia tone effect";
              aliases := ["brown"; "antique"] |}).
  - unfold BUILTIN_TEMPLATES. do 4 (apply elem_of_cons; right).
    apply elem_of_cons. by left.
  - intros u Hu. cbn in Hu. apply elem_of_cons in Hu as [->|Hu]; [done|].
    by apply elem_of_nil in Hu.
Defined.

(** X11: a user record overrides by name: if [u] is among the accepted user
    records and no later accepted record has its name, then that name resolves
    to the prompt of [u], also when a built-in template has the same name. *)
Theorem user_template_overrides (f : TemplatesFile) (pre post : list Template)
    (u : Template) :
  accepted f = pre ++ u :: post →
  (∀ v, v ∈ post → name v ≠ name u) →
  (resolve_prompt f (name u) None).1 = Ok (prompt u).
Proof.
  intros Hacc Hpost.
  unfold resolve_prompt, bind, lift. rewrite get_registry_fresh.
  rewrite (get_by_name _ (name u) u); [done|].
  rewrite Hacc, app_assoc. by apply registered_from_last.
Qed.

Lemma user_template_overrides_witness :
  (resolve_prompt (Loaded [user_enhance]) "enhance" None).1 = Ok "Make it pop".
Proof.
  apply (user_template_overrides (Loaded [user_enhance]) [] []
           {| name := "enhance"; prompt := "Make it pop";
              description := ""; aliases := [] |}).
  - reflexivity.
  - intros v Hv. by apply elem_of_nil in Hv.
Defined.

End registry_further.

(** ** Configuration *)

Section config_further.
Import Config.

Lemma env_map_cases (key env_var : string) :
  env_map !! key = Some env_var →
  (key, env_var) ∈ [("default-quality", "IMAGE_EDIT_DEFAULT_QUALITY");
                    ("default-format", "IMAGE_EDIT_DEFAULT_FORMAT");
                    ("model", "GEMINI_MODEL"); ("api-key", "GEMINI_API_KEY")].
Proof.
  unfold env_map. intros H.
  repeat (rewrite lookup_insert in H; case_decide;
          [simplify_eq; set_solver|]).
  by rewrite lookup_empty in H.
Qed.

Lemma env_map_truthy (key env_var : string) :
  env_map !! key = Some env_var → truthy (Some env_var) = true.
Proof.
  intros H. apply env_map_cases in H.
  repeat (apply elem_of_cons in H as [[= -> ->]|H]; [done|]).
  by apply elem_of_nil in H.
Qed.

Lemma get_config_value_env (key env_var x : string) (w : World) :
  env_map !! key = Some env_var → environ w !! env_var = Some x → x ≠ "" →
  get_config_value key w = Some x.
Proof.
  intros Hk Hx Hne. unfold get_config_value. rewrite Hk.
  rewrite (env_map_truthy key env_var Hk). simpl. rewrite Hx.
  simpl. by rewrite decide_False.
Qed.


(** X12: a non-empty environment variable decides the value of its key,
    whatever the configuration file and the defaults say. *)
Theorem environment_variable_wins (key env_var x : string) (w : World) :
  env_map !! key = Some env_var →
  environ w !! env_var = Some x →
  x ≠ "" →
  get_config_value key w = Some x.
Proof. apply get_config_value_env. Qed.

Lemma environment_variable_wins_witness :
  get_config_value "model"
    (world_of {["GEMINI_MODEL" := "gemini-2.0-flash-exp"]}
       (ConfigTable {["model" := TStr "from-the-file"]}))
  = Some "gemini-2.0-flash-exp".
Proof.
  apply (environment_variable_wins "model" "GEMINI_MODEL" "gemini-2.0-flash-exp").
  - reflexivity.
  - reflexivity.
  - discriminate.
Defined.

(** X13: an environment variable set to the empty string counts as unset. *)
Theorem empty_environment_variable_is_unset (key env_var : string)
    (E : gmap string string) (f : ConfigFile) :
  get_config_value key (world_of (<[env_var := ""]> E) f)
  = get_config_value key (world_of (delete env_var E) f).
Proof.
  unfold get_config_value, world_of. cbn [environ config_file].
  destruct (env_map !! key) as [v|] eqn:Hk; [|done].
  rewrite (env_map_truthy key v Hk). simpl.
  destruct (decide (env_var = v)) as [->|Hne].
  - by rewrite lookup_insert_eq, lookup_delete_eq.
  - by rewrite lookup_insert_ne, lookup_delete_ne.
Qed.



Lemma get_config_value_file_agree (key : string) (E : gmap string string)
    (f f' : ConfigFile) :
  _load_config_file f' !! key = _load_config_file f !! key →
  get_config_value key (world_of E f') = get_config_value key (world_of E f).
Proof.
  intros Hsame. unfold get_config_value, world_of. cbn [environ config_file].
  by rewrite Hsame.
Qed.


(** X16: [unset_config_value] answers whether the file held the key.
    Afterwards the key reads as if there were no file, the other keys read as
    before, and a second call answers false. *)
Theorem unset_config_value_effect (key : string) (E : gmap string string)
    (f : ConfigFile) :
  (unset_config_value key f).1
  = Ok (bool_decide (is_Some (_load_config_file f !! key))) ∧
  get_config_value key (world_of E (unset_config_value key f).2)
  = get_config_value key (world_of E NoConfigFile) ∧
  (∀ other, other ≠ key →
     get_config_value other (world_of E (unset_config_value key f).2)
     = get_config_value other (world_of E f)) ∧
  (unset_config_value key (unset_config_value key f).2).1 = Ok false.
Proof.
  unfold unset_config_value, bind, get_state, _save_config_file, modify, ret.
  destruct (decide (is_Some (_load_config_file f !! key))) as [Hin|Hout];
    cbn [fst snd].
  - rewrite bool_decide_eq_true_2 by done. split_and!.
    + done.
    + apply get_config_value_file_agree. cbn [_load_config_file].
      by rewrite lookup_delete_eq, lookup_empty.
    + intros other Hother. apply get_config_value_file_agree.
      cbn [_load_config_file]. by rewrite lookup_delete_ne.
    + cbn [_load_config_file]. rewrite decide_False; [done|].
      rewrite lookup_delete_eq. by intros [? ?].
  - rewrite bool_decide_eq_false_2 by done. split_and!.
    + done.
    + apply get_config_value_file_agree. cbn [_load_config_file].
      rewrite lookup_empty. by apply eq_None_not_Some.
    + done.
    + by rewrite decide_False.
Qed.

Lemma or_default_nonempty (o : option string) (d : string) :
  d ≠ "" → or_default o d ≠ "".
Proof.
  intros Hd. unfold or_default, truthy.
  destruct o as [s|]; [|done]. by case_decide.
Qed.

(** X17: the model name, the default format and the default quality that
    [Settings] hands out are never empty: an empty value from the environment
    or the file gives way to the built-in default. *)
Theorem settings_never_empty (w : World) :
  gemini_model w ≠ "" ∧ default_format w ≠ "" ∧ default_quality w ≠ "".
Proof. split_and!; by apply or_default_nonempty. Qed.

End config_further.

(** ** Provider *)

Section provider_further.
Import Providers Core.

Ltac enter_call Hhas :=
  match goal with
  | |- context [run_call ?env ?call ?self] =>
      destruct (run_call_with_client env call self Hhas) as [c Hc];
      destruct call; unfold run_call;
      unfold edit, generate, combine, send, log, wrap_foreign;
      unfold bind, try_except, modify, lift, ret, raise;
      cbn beta iota; unfold entered in *;
      rewrite Hc; cbn [_client events]
  end.

Lemma first_inline_data_found (pre post : list ResponsePart) (p : ResponsePart)
    (b : Blob) :
  Forall (λ q, inline_data q = None) pre → inline_data p = Some b →
  first_inline_data (pre ++ p :: post) = Some b.
Proof.
  intros Hpre Hp. induction Hpre as [|q pre Hq _ IH]; cbn [app first_inline_data].
  - by rewrite Hp.
  - by rewrite Hq.
Qed.

Lemma first_inline_data_absent (ps : list ResponsePart) :
  Forall (λ q, inline_data q = None) ps → first_inline_data ps = None.
Proof.
  induction 1 as [|q ps Hq _ IH]; [done|].
  cbn [first_inline_data]. by rewrite Hq.
Qed.

(** X18: for [edit], [generate] and [combine]: when the first candidate of the
    response has a part with image data, the result is the first such part,
    with the MIME type the response gives for it, the provider name "gemini"
    and the configured model name.  Text parts before it and further
    candidates play no role. *)
Theorem first_image_is_returned (env : Env) (call : Call) (self : GeminiProvider)
    (resp : Response) (cand : Candidate) (others : list Candidate)
    (pre post : list ResponsePart) (p : ResponsePart) (b : Blob) :
  has_client env self →
  (∀ c req, generate_content env c req = Ok resp) →
  candidates resp = cand :: others →
  parts cand = pre ++ p :: post →
  Forall (λ q, inline_data q = None) pre →
  inline_data p = Some b →
  (run_call env call self).1
  = Ok {| image_data := data b;
          mime_type := blob_mime_type b;
          provider := "gemini";
          model := Some (gemini_model (settings env)) |}.
Proof.
  intros Hhas Hsvc Hcands Hparts Hpre Hp.
  pose proof (first_inline_data_found pre post p b Hpre Hp) as Hfirst.
  rewrite <- Hparts in Hfirst.
  enter_call Hhas; rewrite Hsvc; unfold first_candidate_parts; rewrite Hcands;
    cbn beta iota; by rewrite Hfirst.
Qed.

Lemma first_image_is_returned_witness :
  (run_call text_then_image_env (CallGenerate "a red kite") new_provider).1
  = Ok {| image_data := data demo_blob;
          mime_type := blob_mime_type demo_blob;
          provider := "gemini";
          model := Some (gemini_model (settings text_then_image_env)) |}.
Proof.
  apply (first_image_is_returned text_then_image_env (CallGenerate "a red kite")
           new_provider
           {| candidates :=
                [{| parts := [text_part "Here you are:"; image_part demo_blob] |}] |}
           {| parts := [text_part "Here you are:"; image_part demo_blob] |} []
           [text_part "Here you are:"] [] (image_part demo_blob) demo_blob).
  - right. reflexivity.
  - reflexivity.
  - reflexivity.
  - reflexivity.
  - constructor; [reflexivity | constructor].
  - reflexivity.
Defined.

(** X19: when the first candidate has no image but some non-empty text,
    [edit] and [combine] fail with a [ProviderError] that quotes the text
    parts joined by spaces, while [generate] drops the text and reports that
    the response contained no image data. *)
Theorem text_only_response (env : Env) (call : Call) (self : GeminiProvider)
    (resp : Response) (cand : Candidate) (others : list Candidate) :
  has_client env self →
  (∀ c req, generate_content env c req = Ok resp) →
  candidates resp = cand :: others →
  Forall (λ q, inline_data q = None) (parts cand) →
  text_parts (parts cand) ≠ [] →
  (run_call env call self).1
  = Raise (ProviderError
             match call with
             | CallGenerate _ => "Gemini response contained no image data"
             | _ => "Gemini returned text instead of image: "
                    +:+ join " " (text_parts (parts cand))
             end None).
Proof.
  intros Hhas Hsvc Hcands Hnone Htext.
  pose proof (first_inline_data_absent (parts cand) Hnone) as Hfirst.
  enter_call Hhas; rewrite Hsvc; unfold first_candidate_parts; rewrite Hcands;
    cbn beta iota; rewrite Hfirst; try done;
    by destruct (text_parts (parts cand)).
Qed.

Lemma text_only_response_witness :
  (run_call text_only_env (CallEdit Image.PNG_SIGNATURE "remove the sky" None)
     new_provider).1
  = Raise (ProviderError
             ("Gemini returned text instead of image: "
              +:+ join " " (text_parts [text_part "I cannot"; text_part "do that"]))
             None).
Proof.
  apply (text_only_response text_only_env
           (CallEdit Image.PNG_SIGNATURE "remove the sky" None) new_provider
           {| candidates :=
                [{| parts := [text_part "I cannot"; text_part "do that"] |}] |}
           {| parts := [text_part "I cannot"; text_part "do that"] |} []).
  - right. reflexivity.
  - reflexivity.
  - reflexivity.
  - repeat constructor.
  - discriminate.
Defined.

Lemma run_call_state (env : Env) (call : Call) (self : GeminiProvider) :
  has_client env self →
  ∃ c, (run_call env call self).2
       = {| _client := Some c;
            events := events self ++ [Invoked call; Sent (request_of env call)] |}.
Proof.
  intros Hhas.
  destruct call as [image_data prompt mime_type | prompt | images prompt].
  - destruct (run_call_with_client env (CallEdit image_data prompt mime_type)
                self Hhas) as [c Hc].
    exists c. unfold run_call.
    unfold edit, generate, combine, send, log, wrap_foreign.
    unfold bind, try_except, modify, lift, ret, raise.
    cbn beta iota. unfold entered in *. rewrite Hc. cbn [_client events].
    rewrite <- app_assoc. cbn [app request_of].
    repeat case_match; simplify_eq; done.
  - destruct (run_call_with_client env (CallGenerate prompt) self Hhas) as [c Hc].
    exists c. unfold run_call.
    unfold edit, generate, combine, send, log, wrap_foreign.
    unfold bind, try_except, modify, lift, ret, raise.
    cbn beta iota. unfold entered in *. rewrite Hc. cbn [_client events].
    rewrite <- app_assoc. cbn [app request_of].
    repeat case_match; simplify_eq; done.
  - apply combine_state. done.
Qed.

(** X20: with a client at hand, every operation sends exactly one request,
    whatever the service answers: the provider's events grow by the entry of
    the method and that request, which carries the configured model, the
    arguments (image bytes unchanged, each with the hinted or detected MIME
    type or image/png, then the prompt) and the modalities IMAGE and TEXT;
    the client is cached on the object. *)
Theorem one_request_per_call (env : Env) (call : Call) (self : GeminiProvider) :
  has_client env self →
  ∃ c, (run_call env call self).2
       = {| _client := Some c;
            events := events self ++ [Invoked call; Sent (request_of env call)] |}.
Proof. apply run_call_state. Qed.

Lemma one_request_per_call_witness :
  ∃ c, (run_call demo_env (CallEdit [xff; xd8; xff; xe0] "make it blue" None)
          new_provider).2
       = {| _client := Some c;
            events := events new_provider
                      ++ [Invoked (CallEdit [xff; xd8; xff; xe0] "make it blue" None);
                          Sent (request_of demo_env
                                  (CallEdit [xff; xd8; xff; xe0] "make it blue" None))] |}.
Proof.
  apply (one_request_per_call demo_env
           (CallEdit [xff; xd8; xff; xe0] "make it blue" None) new_provider).
  right. reflexivity.
Defined.

Lemma run_call_enters (env : Env) (call : Call) (self : GeminiProvider) :
  ∃ rest, events (run_call env call self).2 = events self ++ Invoked call :: rest.
Proof.
  destruct (_client self) as [c|] eqn:Hc;
    [|destruct (truthy (gemini_api_key (settings env))) eqn:Hk].
  - destruct (run_call_state env call self) as [c' ->]; [left; eauto|]. eauto.
  - destruct (run_call_state env call self) as [c' ->]; [by right|]. eauto.
  - rewrite run_call_missing_key by done. exists []. done.
Qed.



End provider_further.

(** ** Orchestration *)

Section core_further.
Import Registry Providers Core CoreOps.

Lemma resolve_prompt_returns (f : TemplatesFile) (s : string)
    (g : option Templates.TemplateRegistry) :
  (∀ r, g = Some r → registered r) →
  ∃ out g', resolve_prompt f s g = (Ok out, g').
Proof.
  intros Hg.
  assert (∃ r, get_registry f g = (Ok r, Some r) ∧ registered r) as (r & Hget & Hreg).
  { destruct g as [r|].
    - exists r. split; [done | by apply Hg].
    - eexists. split; [apply get_registry_fresh | by eexists]. }
  destruct (get_total r s (registered_aliases_resolve r Hreg)) as [o Ho].
  unfold resolve_prompt, bind, lift, ret. rewrite Hget, Ho.
  destruct o; eauto.
Qed.

Lemma get_provider_unknown (provider_name : string) (evs : list Event) :
  provider_name ≠ "gemini" →
  get_provider provider_name evs
  = Raise (ValueError (unknown_provider_message provider_name)).
Proof.
  intros Hne. unfold get_provider, providers.
  rewrite decide_False; [done|].
  intros Hin. apply elem_of_cons in Hin as [|Hin]; [done|].
  by apply elem_of_nil in Hin.
Qed.

(** X22: [edit_image] resolves its prompt before it calls the provider: with
    the provider "gemini", it is the provider's [edit] on a new provider
    object, entered with the image, the text [resolve_prompt] gives for the
    prompt, and the MIME hint; the registry global is left as [resolve_prompt]
    leaves it. *)
Theorem edit_image_sends_resolved_prompt (f : TemplatesFile) (env : Env)
    (image_data : bytes) (prompt : string) (mime_type : option string)
    (g : option Templates.TemplateRegistry) (evs : list Event) :
  (∀ r, g = Some r → registered r) →
  ∃ resolved g' rest,
    resolve_prompt f prompt g = (Ok resolved, g') ∧
    (edit_image f env image_data prompt "gemini" mime_type (g, evs)).1
    = (edit env image_data resolved mime_type {| _client := None; events := evs |}).1 ∧
    (edit_image f env image_data prompt "gemini" mime_type (g, evs)).2
    = (g', evs ++ Invoked (CallEdit image_data resolved mime_type) :: rest).
Proof.
  intros Hg.
  destruct (resolve_prompt_returns f prompt g Hg) as (resolved & g' & Hres).
  destruct (run_call_enters env (CallEdit image_data resolved mime_type)
              {| _client := None; events := evs |}) as [rest Hrest].
  exists resolved, g', rest. split; [done|].
  unfold edit_image. rewrite get_provider_known by (by apply elem_of_cons; left).
  rewrite Hres. cbn [run_call events] in Hrest.
  destruct (edit env image_data resolved mime_type _) as [r p].
  cbn [fst snd] in *. by rewrite Hrest.
Qed.

Lemma edit_image_sends_resolved_prompt_witness :
  ∃ resolved g' rest,
    resolve_prompt Missing "mono" None = (Ok resolved, g') ∧
    (edit_image Missing demo_env Image.PNG_SIGNATURE "mono" "gemini" None (None, [])).1
    = (edit demo_env Image.PNG_SIGNATURE resolved None
         {| _client := None; events := [] |}).1 ∧
    (edit_image Missing demo_env Image.PNG_SIGNATURE "mono" "gemini" None (None, [])).2
    = (g', [] ++ Invoked (CallEdit Image.PNG_SIGNATURE resolved None) :: rest).
Proof.
  apply (edit_image_sends_resolved_prompt Missing demo_env Image.PNG_SIGNATURE
           "mono" None None []).
  intros r Hr. discriminate Hr.
Defined.

(** X23: [generate_image] does not look at the templates: with a key
    configured, the one request it sends carries the prompt exactly as given,
    also when the prompt is the name of a template. *)
Theorem generate_image_sends_prompt_verbatim (env : Env) (prompt : string)
    (evs : list Event) :
  truthy (gemini_api_key (settings env)) = true →
  (generate_image env prompt "gemini" evs).2
  = evs ++ [Invoked (CallGenerate prompt);
            Sent {| req_model := model_name env;
                    req_contents := Text prompt;
                    response_modalities := ["IMAGE"; "TEXT"] |}].
Proof.
  intros Hkey. unfold generate_image.
  rewrite get_provider_known by (by apply elem_of_cons; left).
  destruct (run_call_state env (CallGenerate prompt)
              {| _client := None; events := evs |}) as [c Hc]; [by right|].
  cbn [run_call events request_of] in Hc.
  destruct (generate env prompt _) as [r p]. cbn [snd] in *. by rewrite Hc.
Qed.

Lemma generate_image_sends_prompt_verbatim_witness :
  (generate_image demo_env "watercolor" "gemini" []).2
  = [] ++ [Invoked (CallGenerate "watercolor");
           Sent {| req_model := model_name demo_env;
                   req_contents := Text "watercolor";
                   response_modalities := ["IMAGE"; "TEXT"] |}].
Proof.
  apply (generate_image_sends_prompt_verbatim demo_env "watercolor" []).
  reflexivity.
Defined.

(** X24: a provider name other than "gemini" is refused with a [ValueError]
    that names it and lists "gemini", before anything else happens: no
    template is loaded, no provider method is entered.  In [combine_images]
    the check on the number of images comes first. *)
Theorem unknown_provider_rejected (f : TemplatesFile) (env : Env)
    (provider_name : string) (image_data : bytes) (images : list image)
    (prompt : string) (mime_type : option string)
    (g : option Templates.TemplateRegistry) (evs : list Event) :
  provider_name ≠ "gemini" →
  edit_image f env image_data prompt provider_name mime_type (g, evs)
  = (Raise (ValueError (unknown_provider_message provider_name)), (g, evs)) ∧
  generate_image env prompt provider_name evs
  = (Raise (ValueError (unknown_provider_message provider_name)), evs) ∧
  (2 ≤ length images →
     combine_images env images prompt provider_name evs
     = (Raise (ValueError (unknown_provider_message provider_name)), evs)) ∧
  (length images < 2 →
     combine_images env images prompt provider_name evs
     = (Raise (ValueError "At least 2 images are required for combine operation"),
        evs)).
Proof.
  intros Hne.
  pose proof (get_provider_unknown provider_name evs Hne) as Hget.
  unfold edit_image, generate_image, combine_images. rewrite Hget.
  split_and!; try done.
  - intros Hlen. by rewrite decide_False by lia.
  - intros Hlen. by rewrite decide_True.
Qed.

Lemma unknown_provider_rejected_witness :
  edit_image Missing demo_env Image.PNG_SIGNATURE "mono" "dalle" None (None, [])
  = (Raise (ValueError (unknown_provider_message "dalle")), (None, [])) ∧
  generate_image demo_env "mono" "dalle" []
  = (Raise (ValueError (unknown_provider_message "dalle")), []) ∧
  (2 ≤ length two_unhinted_images →
     combine_images demo_env two_unhinted_images "mono" "dalle" []
     = (Raise (ValueError (unknown_provider_message "dalle")), [])) ∧
  (length two_unhinted_images < 2 →
     combine_images demo_env two_unhinted_images "mono" "dalle" []
     = (Raise (ValueError "At least 2 images are required for combine operation"),
        [])).
Proof.
  apply (unknown_provider_rejected Missing demo_env "dalle" Image.PNG_SIGNATURE
           two_unhinted_images "mono" None None []).
  discriminate.
Defined.

End core_further.

(** ** Reading and writing images *)

Section io_further.
Import Image IO.

(** X25: writing to a file needs no conversion, and does not call the imaging
    library, when no target format can be told (none asked for, suffix
    unknown) or when the data already has the target format: the bytes are
    stored as they are. *)
Theorem write_file_without_conversion (pil : bytes → ImageFormat → result bytes)
    (image_data : bytes) (output_path : Path) (output_format : option ImageFormat)
    (fs : FS) :
  file_target output_path output_format = None
  ∨ detect_format image_data = file_target output_path output_format →
  write_image_output pil image_data (Some output_path) output_format fs
  = (Ok tt, with_file fs output_path image_data).
Proof.
  intros Hsame. unfold write_image_output, bind, lift, write_file, modify.
  fold (file_target output_path output_format).
  unfold _convert_format.
  destruct (file_target output_path output_format) as [target|]; [|done].
  destruct Hsame as [|Hsame]; [done|]. by rewrite decide_True.
Qed.

Lemma write_file_without_conversion_witness :
  write_image_output failing_pil [x00; x01; x02; x03]
    (Some {| path_str := "out.bmp"; suffix := ".bmp" |}) None empty_fs
  = (Ok tt, with_file empty_fs {| path_str := "out.bmp"; suffix := ".bmp" |}
              [x00; x01; x02; x03]).
Proof.
  apply (write_file_without_conversion failing_pil [x00; x01; x02; x03]
           {| path_str := "out.bmp"; suffix := ".bmp" |} None empty_fs).
  left. reflexivity.
Defined.

(** X26: written to the standard output with no format asked for, PNG data
    goes out byte for byte; any other data is converted to PNG first, and goes
    out only if the conversion succeeds. *)
Theorem write_stdout_defaults_to_png (pil : bytes → ImageFormat → result bytes)
    (image_data : bytes) (fs : FS) :
  (detect_format image_data = Some PNG →
     write_image_output pil image_data None None fs
     = (Ok tt, with_output fs image_data)) ∧
  (detect_format image_data ≠ Some PNG →
     (∀ converted, pil image_data PNG = Ok converted →
        write_image_output pil image_data None None fs
        = (Ok tt, with_output fs converted)) ∧
     (∀ e, pil image_data PNG = Raise e →
        write_image_output pil image_data None None fs = (Raise e, fs))).
Proof.
  unfold write_image_output, bind, lift, write_stdout, modify, _convert_format.
  split; intros Hfmt.
  - by rewrite decide_True.
  - rewrite decide_False by done. split.
    + by intros converted ->.
    + by intros e ->.
Qed.

(** X28: [read_image_input] never hands back empty data, from a file or from
    the standard input; and a file whose bytes carry a known signature is
    reported with the format of its bytes, whatever its suffix says. *)
Theorem read_image_input_result (input_path : option Path) (fs fs' : FS)
    (data : bytes) (fmt : option ImageFormat) :
  read_image_input input_path fs = (Ok (data, fmt), fs') →
  data ≠ [] ∧
  (∀ path, input_path = Some path →
     files fs !! path_str path = Some data ∧ fs' = fs ∧
     (∀ f, detect_format data = Some f → fmt = Some f) ∧
     (detect_format data = None → fmt = format_from_extension (suffix path))) ∧
  (input_path = None → stdin fs = Some data ∧ fmt = detect_format data).
Proof.
  unfold read_image_input, bind, get_state, ret, raise.
  destruct input_path as [path|].
  - destruct (files fs !! path_str path) as [d|] eqn:Hd; [|done].
    case_decide as Hempty; [done|]. intros [= <- <- <-].
    split_and!; [done| |done].
    intros path' [= <-]. split_and!; try done.
    + intros f Hf. by rewrite Hf.
    + intros Hnone. by rewrite Hnone.
  - destruct (stdin fs) as [d|] eqn:Hd; [|done].
    unfold read_stdin. rewrite Hd. cbn beta iota. cbn [default].
    case_decide as Hempty; [done|]. intros [= <- <- <-].
    split_and!; done.
Qed.

Lemma read_image_input_result_witness :
  PNG_SIGNATURE ≠ [] ∧
  (∀ path, Some misnamed_png = Some path →
     files fs_with_misnamed_png !! path_str path = Some PNG_SIGNATURE ∧
     fs_with_misnamed_png = fs_with_misnamed_png ∧
     (∀ f, detect_format PNG_SIGNATURE = Some f → Some PNG = Some f) ∧
     (detect_format PNG_SIGNATURE = None →
        Some PNG = format_from_extension (suffix path))) ∧
  (Some misnamed_png = None →
     stdin fs_with_misnamed_png = Some PNG_SIGNATURE ∧
     Some PNG = detect_format PNG_SIGNATURE).
Proof.
  apply (read_image_input_result (Some misnamed_png) fs_with_misnamed_png
           fs_with_misnamed_png PNG_SIGNATURE (Some PNG)).
  reflexivity.
Defined.

Lemma read_paths_contents (input_paths : list Path) (fs : FS)
    (images : list (bytes * option ImageFormat)) :
  read_paths input_paths fs = Ok images →
  Forall2 (λ path im, files fs !! path_str path = Some im.1 ∧ im.1 ≠ [])
    input_paths images.
Proof.
  revert images. induction input_paths as [|path paths IH]; intros images.
  - intros [= <-]. constructor.
  - cbn [read_paths].
    destruct (files fs !! path_str path) as [d|] eqn:Hd; [|done].
    case_decide as Hempty; [done|].
    destruct (read_paths paths fs) as [rest|e]; [|done].
    intros [= <-]. constructor; [done|]. by apply IH.
Qed.

(** X29: what [read_multiple_images] returns holds, for every path and in the
    order of the paths, the non-empty content of the file; the only other
    image it can hold is the piped standard input, non-empty, put in front,
    and only when exactly one path was given and the fallback is allowed. *)
Theorem read_multiple_images_result (input_paths : list Path)
    (allow_stdin_fallback : bool) (fs fs' : FS)
    (images : list (bytes * option ImageFormat)) :
  read_multiple_images input_paths allow_stdin_fallback fs = (Ok images, fs') →
  ∃ from_files,
    Forall2 (λ path im, files fs !! path_str path = Some im.1 ∧ im.1 ≠ [])
      input_paths from_files ∧
    (images = from_files ∨
     ∃ d, stdin fs = Some d ∧ d ≠ [] ∧ length input_paths = 1 ∧
          allow_stdin_fallback = true ∧
          images = (d, detect_format d) :: from_files).
Proof.
  unfold read_multiple_images, bind, get_state, lift, ret.
  destruct (read_paths input_paths fs) as [from_files|e] eqn:Hpaths; [|done].
  pose proof (read_paths_contents input_paths fs from_files Hpaths) as Hcontents.
  destruct (bool_decide (length input_paths = 1)) eqn:Hone; cbn [andb];
    [|intros [= <- _]; eauto].
  destruct allow_stdin_fallback; cbn [andb]; [|intros [= <- _]; eauto].
  destruct (stdin fs) as [d|] eqn:Hd.
  - rewrite bool_decide_eq_true_2 by eauto.
    unfold read_stdin. rewrite Hd. simpl.
    apply bool_decide_eq_true_1 in Hone.
    destruct (decide (d = [])) as [Hempty|Hfull]; intros [= <- _].
    + exists from_files. split; [done | by left].
    + exists from_files. split; [done|]. right. by exists d.
  - rewrite bool_decide_eq_false_2 by (by intros [? ?]).
    intros [= <- _]. eauto.
Qed.

Lemma read_multiple_images_result_witness :
  ∃ from_files,
    Forall2 (λ path im,
               files {| files := {["photo.jpg" := PNG_SIGNATURE]};
                        stdin := Some GIF89a; stdout := [] |}
                 !! path_str path = Some im.1 ∧ im.1 ≠ [])
      [misnamed_png] from_files ∧
    ([(GIF89a, Some GIF); (PNG_SIGNATURE, Some PNG)] = from_files ∨
     ∃ d, stdin {| files := {["photo.jpg" := PNG_SIGNATURE]};
                   stdin := Some GIF89a; stdout := [] |} = Some d ∧
          d ≠ [] ∧ length [misnamed_png] = 1 ∧ true = true ∧
          [(GIF89a, Some GIF); (PNG_SIGNATURE, Some PNG)]
          = (d, detect_format d) :: from_files).
Proof.
  apply (read_multiple_images_result [misnamed_png] true
           {| files := {["photo.jpg" := PNG_SIGNATURE]};
              stdin := Some GIF89a; stdout := [] |}
           {| files := {["photo.jpg" := PNG_SIGNATURE]};
              stdin := Some []; stdout := [] |}).
  reflexivity.
Defined.

End io_further.

(** ** Command line: how the API key is shown *)

Section cli_further.
Import Config Cli.

Lemma substring_all (s : string) : String.substring 0 (String.length s) s = s.
Proof. induction s as [|c s IH]; [done|]. cbn. by rewrite IH. Qed.

Lemma substring_split (s : string) (m k : nat) :
  m + k = String.length s →
  s = String.substring 0 m s +:+ String.substring m k s ∧
  String.length (String.substring m k s) = k.
Proof.
  revert m. induction s as [|c s IH]; intros m Hlen.
  - cbn in Hlen. assert (m = 0) as -> by lia. assert (k = 0) as -> by lia. done.
  - destruct m as [|m].
    + cbn in Hlen. subst k.
      change (String.substring 0 0 (String c s)) with EmptyString.
      change (S (String.length s)) with (String.length (String c s)).
      rewrite substring_all. done.
    + cbn in Hlen. destruct (IH m) as [Heq Hl]; [lia|].
      change (String.substring (S m) k (String c s)) with (String.substring m k s).
      change (String.substring 0 (S m) (String c s))
        with (String c (String.substring 0 m s)).
      split; [|done].
      change (String c s
              = String c (String.substring 0 m s +:+ String.substring m k s)).
      by rewrite <- Heq.
Qed.

Lemma last_four_suffix (value : string) :
  4 < String.length value →
  String.length (last_four value) = 4 ∧ ∃ hidden, value = hidden +:+ last_four value.
Proof.
  intros Hlen. unfold last_four.
  destruct (substring_split value (String.length value - 4) 4) as [Heq Hl]; [lia|].
  split; [done|]. eauto.
Qed.

(** X30: how the two [config] commands show an API key.  [config get api-key]
    prints four stars followed by at most the last four characters of the key:
    nothing of a key of four characters or fewer, exactly the last four of a
    longer one.  [config set api-key] stores the key and echoes a longer key
    in the same masked form, but echoes a key of four characters or fewer as
    it is. *)
Theorem api_key_display (s : Session) (value : string) :
  (get_config_value "api-key" (world s) = Some value →
   ∃ shown,
     config_get "api-key" s
     = (Ok tt, {| world := world s;
                  printed := printed s ++ ["api-key: ****" +:+ shown] |}) ∧
     (String.length value ≤ 4 → shown = "") ∧
     (4 < String.length value →
        String.length shown = 4 ∧ ∃ hidden, value = hidden +:+ shown)) ∧
  (∃ echoed,
     config_set "api-key" value s
     = (Ok tt,
        {| world := world_of (environ (world s))
                      (ConfigTable (<["api-key" := TStr value]>
                                      (_load_config_file (config_file (world s)))));
           printed := printed s ++ ["[green]Set api-key = " +:+ echoed +:+ "[/green]"] |}) ∧
     (String.length value ≤ 4 → echoed = value) ∧
     (4 < String.length value →
        ∃ shown hidden, echoed = "****" +:+ shown ∧ String.length shown = 4 ∧
                        value = hidden +:+ shown)).
Proof.
  split.
  - intros Hval. unfold config_get.
    rewrite decide_True by (apply elem_of_cons; by left).
    unfold bind, get_state. rewrite Hval. rewrite decide_True by done.
    unfold console_print, modify.
    destruct (decide (4 < String.length value)) as [Hlong|Hshort].
    + rewrite bool_decide_eq_true_2 by done.
      exists (last_four value). split_and!; [done | lia |].
      intros _. by apply last_four_suffix.
    + rewrite bool_decide_eq_false_2 by done.
      exists "". split_and!; [done | done | lia].
  - unfold config_set, try_except_ValueError, try_except, bind, on_config_file.
    unfold set_config_value. rewrite decide_True by (apply elem_of_cons; by left).
    unfold bind, get_state, _save_config_file, modify, console_print, modify.
    cbn beta iota. rewrite bool_decide_eq_true_2 by done. cbn [andb].
    destruct (decide (4 < String.length value)) as [Hlong|Hshort].
    + rewrite bool_decide_eq_true_2 by done.
      exists ("****" +:+ last_four value). split_and!; [done | lia |].
      intros _. destruct (last_four_suffix value Hlong) as [Hl [hidden Hh]].
      by exists (last_four value), hidden.
    + rewrite bool_decide_eq_false_2 by done.
      exists value. split_and!; [done | done | lia].
Qed.

Example config_get_masks_key :
  printed (config_get "api-key" (session_with_key "sk-12345678")).2
  = ["api-key: ****5678"] ∧
  printed (config_get "api-key" (session_with_key "abcd")).2 = ["api-key: ****"] ∧
  printed (config_set "api-key" "abcd" (session_with_key "")).2
  = ["[green]Set api-key = abcd[/green]"].
Proof. by vm_compute. Qed.

Example config_defaults :
  get_config_value "model" (world_of ∅ NoConfigFile) = Some "gemini-3-pro-image-preview" ∧
  get_config_value "api-key" (world_of ∅ BadConfigFile) = None ∧
  get_config_value "default-quality" (world_of ∅ (ConfigTable {["default-quality" := TInt 2]}))
  = Some "2".
Proof. by vm_compute. Qed.

End cli_further.

(** * Untyped values and unguarded calls *)

(** ** Registry and prompt resolution *)

Section registry_io.
Import RegistryIO.

Lemma for_each_preserves {St A} (P : St → Prop) (body : A → action St unit)
    (xs : list A) :
  (∀ x s, P s → P (body x s).2) → ∀ s, P s → P (for_each xs body s).2.
Proof.
  intros Hbody. induction xs as [|x xs IH]; intros s Hs; [done|].
  cbn [for_each]. unfold bind.
  pose proof (Hbody x s Hs) as Hx.
  destruct (body x s) as [[[]|e] s']; cbn [snd] in *; [by apply IH | done].
Qed.

Lemma for_each_returns {St A} (body : A → action St unit) (xs : list A) :
  (∀ x s, x ∈ xs → (body x s).1 = Ok tt) → ∀ s, (for_each xs body s).1 = Ok tt.
Proof.
  induction xs as [|x xs IH]; intros Hbody s; [done|].
  cbn [for_each]. unfold bind.
  pose proof (Hbody x s (list_elem_of_here x xs)) as Hx.
  destruct (body x s) as [[[]|e] s']; cbn [fst] in *; [|done].
  apply IH. intros y s0 Hy. apply Hbody. by apply list_elem_of_further.
Qed.

Lemma set_alias_preserves (a k : key) (r : TemplateRegistry) :
  aliases_resolve_io r ∧ is_Some (_templates r !! k) →
  aliases_resolve_io (set_alias a k r).2 ∧ is_Some (_templates (set_alias a k r).2 !! k).
Proof.
  intros [Hr Hk]. unfold set_alias, modify. cbn [snd _templates _alias_map].
  split; [|done]. intros a' k'. cbn [_alias_map _templates].
  destruct (decide (a = a')) as [<-|Hne].
  - rewrite lookup_insert_eq. by intros [= <-].
  - rewrite lookup_insert_ne by done. apply Hr.
Qed.

Lemma register_preserves (t : Template) (r : TemplateRegistry) :
  aliases_resolve_io r → aliases_resolve_io (register t r).2.
Proof.
  intros Hr. unfold register, bind, lift.
  destruct (key_of (name t)) as [k|e]; [|done].
  unfold set_template at 1. unfold modify at 1. cbn beta iota.
  set (r1 := {| _templates := <[k:=t]> (_templates r); _alias_map := _alias_map r |}).
  assert (aliases_resolve_io r1 ∧ is_Some (_templates r1 !! k)) as H1.
  { split.
    - intros a k' Ha. cbn [r1 _templates _alias_map] in *.
      destruct (decide (k = k')) as [<-|Hne].
      + rewrite lookup_insert_eq. eauto.
      + rewrite lookup_insert_ne by done. by apply (Hr a).
    - cbn [r1 _templates]. rewrite lookup_insert_eq. eauto. }
  destruct (iterate (aliases t)) as [items|e]; [|by destruct H1].
  refine (proj1 (for_each_preserves
            (λ s, aliases_resolve_io s ∧ is_Some (_templates s !! k)) _ items _ r1 H1)).
  intros alias s Hs. unfold bind, lift.
  destruct (key_of alias) as [a|e]; [|done].
  by apply set_alias_preserves.
Qed.

Lemma load_round_preserves (tmpl_data : pyval) (r : TemplateRegistry) :
  aliases_resolve_io r → aliases_resolve_io (load_round tmpl_data r).2.
Proof.
  intros Hr. unfold load_round, bind, lift.
  destruct (make_template tmpl_data) as [t|e]; [|done].
  by apply register_preserves.
Qed.

(** The guarded part of the load always returns, whatever the records do. *)
Lemma load_user_templates_guarded (source : TemplatesSource) (r : TemplateRegistry) :
  (∀ e, source ≠ DirFails e) → (load_user_templates source r).1 = Ok tt.
Proof.
  intros Hdir. destruct source as [e| |e|data]; cbn [load_user_templates].
  - by destruct (Hdir e).
  - done.
  - by rewrite try_except_pass.
  - by rewrite try_except_pass.
Qed.

Lemma load_user_templates_records (data : list (string * pyval))
    (records : list pyval) (r : TemplateRegistry) :
  lookup_entry "template" data = Some (PList records) →
  (load_user_templates (Parsed data) r).2 = (for_each records load_round r).2.
Proof.
  intros Hdata. cbn [load_user_templates]. rewrite try_except_pass.
  unfold bind at 1. unfold lift at 1. by rewrite Hdata.
Qed.

Lemma load_user_templates_preserves (source : TemplatesSource)
    (r : TemplateRegistry) :
  aliases_resolve_io r → aliases_resolve_io (load_user_templates source r).2.
Proof.
  intros Hr. destruct source as [e| |e|data]; cbn [load_user_templates].
  - exact Hr.
  - exact Hr.
  - rewrite try_except_pass. exact Hr.
  - rewrite try_except_pass. unfold bind at 1. unfold lift at 1.
    destruct (iterate _) as [records|e]; [|exact Hr].
    apply (for_each_preserves aliases_resolve_io); [|done].
    intros rec s Hs. by apply load_round_preserves.
Qed.

Lemma register_builtin_returns (t : Templates.Template) (r : TemplateRegistry) :
  (register (of_builtin t) r).1 = Ok tt.
Proof.
  unfold register, bind, lift. cbn [of_builtin name aliases key_of iterate].
  unfold set_template at 1. unfold modify at 1. cbn beta iota.
  apply for_each_returns. intros alias s Hin.
  apply list_elem_of_fmap in Hin as (a & -> & _). done.
Qed.

Lemma init_resolves_io : aliases_resolve_io TemplateRegistry_init.
Proof. intros a k. cbn. by rewrite lookup_empty. Qed.

Lemma builtins_registered :
  for_each Builtin.BUILTIN_TEMPLATES (λ t, register (of_builtin t))
    TemplateRegistry_init = (Ok tt, builtin_registry) ∧
  aliases_resolve_io builtin_registry.
Proof.
  split.
  - unfold builtin_registry.
    pose proof (for_each_returns (λ t, register (of_builtin t))
                  Builtin.BUILTIN_TEMPLATES
                  (λ t s _, register_builtin_returns t s) TemplateRegistry_init) as Hok.
    destruct (for_each Builtin.BUILTIN_TEMPLATES _ TemplateRegistry_init) as [res s].
    cbn [fst snd] in *. by rewrite Hok.
  - unfold builtin_registry.
    apply (for_each_preserves aliases_resolve_io); [|apply init_resolves_io].
    intros t s Hs. by apply register_preserves.
Qed.

Lemma get_registry_first (source : TemplatesSource) :
  get_registry source None
  = match source with
    | DirFails e => (Raise e, Some builtin_registry)
    | _ => (Ok (load_user_templates source builtin_registry).2,
            Some (load_user_templates source builtin_registry).2)
    end.
Proof.
  unfold get_registry, bind. rewrite (proj1 builtins_registered).
  generalize builtin_registry. intros b.
  destruct source as [e| |e|data].
  - reflexivity.
  - reflexivity.
  - pose proof (load_user_templates_guarded (LoadFails e) b) as Hok.
    destruct (load_user_templates (LoadFails e) b) as [res s].
    cbn [fst snd] in *. rewrite Hok; [reflexivity | done].
  - pose proof (load_user_templates_guarded (Parsed data) b) as Hok.
    destruct (load_user_templates (Parsed data) b) as [res s].
    cbn [fst snd] in *. rewrite Hok; [reflexivity | done].
Qed.

Lemma get_io_by_name (r : TemplateRegistry) (s : string) (t : Template) :
  _templates r !! inl s = Some t → get r s = Ok (Some t).
Proof.
  intros H. unfold get. rewrite H.
  case_decide as Hd; [done|]. destruct Hd. eauto.
Qed.

Lemma get_io_by_alias (r : TemplateRegistry) (s : string) (k : key) :
  _templates r !! inl s = None → _alias_map r !! inl s = Some k →
  get r s = match _templates r !! k with
            | Some t => Ok (Some t)
            | None => Raise (KeyError (key_str k))
            end.
Proof.
  intros H1 H2. unfold get. rewrite H1, H2.
  case_decide as Hd; [by destruct Hd|].
  case_decide as Hd'; [done|]. destruct Hd'. eauto.
Qed.

Lemma get_io_unknown (r : TemplateRegistry) (s : string) :
  _templates r !! inl s = None → _alias_map r !! inl s = None → get r s = Ok None.
Proof.
  intros H1 H2. unfold get. rewrite H1, H2.
  case_decide as Hd; [by destruct Hd|].
  case_decide as Hd'; [by destruct Hd'|done].
Qed.

Lemma rounds_return_for_each (r r' : TemplateRegistry) (records : list pyval) :
  rounds_return r records r' → for_each records load_round r = (Ok tt, r').
Proof.
  induction 1 as [r|r r1 r' d records Hd _ IH]; [done|].
  cbn [for_each]. unfold bind at 1. by rewrite Hd.
Qed.

Lemma rounds_stop_for_each (r r1 : TemplateRegistry) (good rest : list pyval)
    (bad : pyval) (e : exn) :
  rounds_return r good r1 → (load_round bad r1).1 = Raise e →
  for_each (good ++ bad :: rest) load_round r = (Raise e, (load_round bad r1).2).
Proof.
  intros Hgood Hbad. induction Hgood as [r|r r1 r' d records Hd _ IH].
  - cbn [app for_each]. unfold bind at 1.
    destruct (load_round bad r) as [res s]. cbn [fst snd] in *. by rewrite Hbad.
  - cbn [app for_each]. unfold bind at 1. rewrite Hd. by apply IH.
Qed.

Lemma load_user_templates_parsed (data : list (string * pyval))
    (r : TemplateRegistry) :
  (load_user_templates (Parsed data) r).2
  = match records_of data with
    | Ok records => (for_each records load_round r).2
    | Raise _ => r
    end.
Proof.
  cbn [load_user_templates]. rewrite try_except_pass.
  unfold bind at 1. unfold lift at 1. fold (records_of data).
  by destruct (records_of data).
Qed.

(** C4 (as the code has it): what [get_config_dir()] or the existence check
    raises leaves [load_user_templates], the registry untouched; nothing else
    does.  With no file, a file that cannot be opened or parsed, or a
    [template] entry that cannot be iterated, the registry is left as it was.
    Otherwise the records are taken in order and each is registered as soon as
    it is read: when every round returns, all are registered; when a round
    raises, the rounds before it stay in effect, what the failing round had
    stored by then stays stored, and the records after it are not looked at.
    A round that fails while the [Template] is built (the record is no table,
    or lacks [name] or [prompt]) or on an unhashable name stores nothing; a
    round that fails on [aliases] that cannot be iterated has stored the
    template under its name already. *)
Theorem load_user_templates_io (source : TemplatesSource) (r : TemplateRegistry) :
  (∀ e, source = DirFails e → load_user_templates source r = (Raise e, r)) ∧
  ((∀ e, source ≠ DirFails e) → (load_user_templates source r).1 = Ok tt) ∧
  (source = NoFile ∨ (∃ e, source = LoadFails e) ∨
   (∃ data e, source = Parsed data ∧ records_of data = Raise e) →
     (load_user_templates source r).2 = r) ∧
  (∀ data records r',
     source = Parsed data → records_of data = Ok records →
     rounds_return r records r' →
     (load_user_templates source r).2 = r') ∧
  (∀ data good bad rest r1 e,
     source = Parsed data → records_of data = Ok (good ++ bad :: rest) →
     rounds_return r good r1 → (load_round bad r1).1 = Raise e →
     (load_user_templates source r).2 = (load_round bad r1).2) ∧
  (∀ bad e r1, make_template bad = Raise e → load_round bad r1 = (Raise e, r1)) ∧
  (∀ bad t e r1,
     make_template bad = Ok t → key_of (name t) = Raise e →
     load_round bad r1 = (Raise e, r1)) ∧
  (∀ bad t k e r1,
     make_template bad = Ok t → key_of (name t) = Ok k →
     iterate (aliases t) = Raise e →
     load_round bad r1 = (Raise e, with_template r1 k t)) ∧
  (∀ entries,
     lookup_entry "name" entries = None →
     make_template (PDict entries) = Raise (KeyError "name")) ∧
  (∀ entries n,
     lookup_entry "name" entries = Some n → lookup_entry "prompt" entries = None →
     make_template (PDict entries) = Raise (KeyError "prompt")).
Proof.
  split_and!.
  - by intros e ->.
  - apply load_user_templates_guarded.
  - intros [-> | [[e ->] | (data & e & -> & Hrec)]].
    + done.
    + cbn [load_user_templates]. by rewrite try_except_pass.
    + by rewrite load_user_templates_parsed, Hrec.
  - intros data records r' -> Hrec Hrounds.
    rewrite load_user_templates_parsed, Hrec.
    by rewrite (rounds_return_for_each r r' records).
  - intros data good bad rest r1 e -> Hrec Hgood Hbad.
    rewrite load_user_templates_parsed, Hrec.
    by rewrite (rounds_stop_for_each r r1 good rest bad e).
  - intros bad e r1 Hbad. unfold load_round, bind, lift. by rewrite Hbad.
  - intros bad t e r1 Hbad Hname. unfold load_round, bind, lift. rewrite Hbad.
    unfold register, bind, lift. by rewrite Hname.
  - intros bad t k e r1 Hbad Hname Hal. unfold load_round, bind, lift. rewrite Hbad.
    unfold register, bind, lift. rewrite Hname.
    unfold set_template, modify. cbn beta iota. by rewrite Hal.
  - intros entries Hn. unfold make_template, subscript. by rewrite Hn.
  - intros entries n Hn Hp. unfold make_template, subscript. by rewrite Hn, Hp.
Qed.

(** A file whose second record lacks [prompt]: the load returns, the first
    record is registered and answers a lookup afterwards.  A file whose only
    record has the integer 5 as [aliases]: the load returns and the template is
    stored, although its registration failed. *)
Lemma load_user_templates_keeps_partial_work :
  load_user_templates (file_of [neon_record; promptless_record]) TemplateRegistry_init
  = (Ok tt,
     {| _templates :=
          {[ inl "neon" := {| name := PStr "neon"; prompt := PStr "Add neon lights";
                              description := PStr "";
                              aliases := PList [PStr "glow"] |} ]};
        _alias_map := {[ inl "glow" := inl "neon" ]} |}) ∧
  get (load_user_templates (file_of [neon_record; promptless_record])
         TemplateRegistry_init).2 "glow"
  = Ok (Some {| name := PStr "neon"; prompt := PStr "Add neon lights";
                description := PStr ""; aliases := PList [PStr "glow"] |}) ∧
  load_round bad_aliases_record TemplateRegistry_init
  = (Raise (TypeError "object is not iterable"),
     {| _templates :=
          {[ inl "half" := {| name := PStr "half"; prompt := PStr "Halve it";
                              description := PStr ""; aliases := PScalar 5 |} ]};
        _alias_map := ∅ |}) ∧
  get (load_user_templates (file_of [bad_aliases_record]) TemplateRegistry_init).2 "half"
  = Ok (Some {| name := PStr "half"; prompt := PStr "Halve it";
                description := PStr ""; aliases := PScalar 5 |}).
Proof. split_and!; by vm_compute. Qed.

Lemma get_registry_outcome (source : TemplatesSource)
    (g : option TemplateRegistry) :
  (∀ r, g = Some r → aliases_resolve_io r) →
  g ≠ None ∨ (∀ e, source ≠ DirFails e) →
  ∃ r, get_registry source g = (Ok r, Some r) ∧ aliases_resolve_io r ∧
       (g = Some r ∨ g = None ∧ r = (load_user_templates source builtin_registry).2).
Proof.
  intros Hg Hcase. destruct g as [r|].
  - exists r. split_and!; [done | by apply Hg | by left].
  - destruct Hcase as [Hne|Hdir]; [done|].
    exists (load_user_templates source builtin_registry).2. split_and!.
    + rewrite get_registry_first. generalize builtin_registry. intros b.
      destruct source as [e| |e|data]; [by destruct (Hdir e) | reflexivity..].
    + apply load_user_templates_preserves, builtins_registered.
    + by right.
Qed.

(** C1 (as the code has it): on the first call, when [get_config_dir()] or the
    existence check of the user's template file raises, [resolve_prompt] raises
    that exception, and the global registry is left holding the built-in
    templates.  In every other case (the registry is there already, or the two
    calls return) [resolve_prompt] returns: the prompt of the template stored
    under the input as a name; failing that, the prompt of the template the
    input is an alias of; failing both, the input itself. *)
Theorem resolve_prompt_io (source : TemplatesSource) (g : option TemplateRegistry)
    (input : string) :
  (∀ r, g = Some r → aliases_resolve_io r) →
  (∀ e, g = None → source = DirFails e →
     resolve_prompt source input g = (Raise e, Some builtin_registry)) ∧
  (g ≠ None ∨ (∀ e, source ≠ DirFails e) →
     ∃ r out,
       resolve_prompt source input g = (Ok out, Some r) ∧
       (g = Some r ∨
        g = None ∧ r = (load_user_templates source builtin_registry).2) ∧
       (∀ t, _templates r !! inl input = Some t → out = prompt t) ∧
       (∀ k, _templates r !! inl input = None → _alias_map r !! inl input = Some k →
          ∃ t, _templates r !! k = Some t ∧ out = prompt t) ∧
       (_templates r !! inl input = None → _alias_map r !! inl input = None →
          out = PStr input)).
Proof.
  intros Hg. split.
  - intros e -> ->. unfold resolve_prompt, bind. rewrite get_registry_first.
    generalize builtin_registry. intros b. reflexivity.
  - intros Hcase.
    destruct (get_registry_outcome source g Hg Hcase) as (r & Hget & Hinv & Hwhich).
    unfold resolve_prompt, bind. rewrite Hget. unfold lift.
    destruct (_templates r !! inl input) as [t|] eqn:Ht.
    + rewrite (get_io_by_name r input t Ht). exists r, (prompt t).
      split_and!; [done | done | | congruence | congruence].
      intros t' Ht'. congruence.
    + destruct (_alias_map r !! inl input) as [k|] eqn:Ha.
      * rewrite (get_io_by_alias r input k Ht Ha).
        destruct (Hinv (inl input) k Ha) as [t Hk]. rewrite Hk.
        exists r, (prompt t). split_and!; [done | done | congruence | | congruence].
        intros k' _ Hk'. exists t. split; congruence.
      * rewrite (get_io_unknown r input Ht Ha). exists r, (PStr input).
        split_and!; [done | done | congruence | congruence | done].
Qed.

Lemma resolve_prompt_io_witness :
  (∀ e, Some builtin_registry = None → NoFile = DirFails e →
     resolve_prompt NoFile "nobg" (Some builtin_registry)
     = (Raise e, Some builtin_registry)) ∧
  (Some builtin_registry ≠ None ∨ (∀ e, NoFile ≠ DirFails e) →
     ∃ r out,
       resolve_prompt NoFile "nobg" (Some builtin_registry) = (Ok out, Some r) ∧
       (Some builtin_registry = Some r ∨
        Some builtin_registry = None ∧
        r = (load_user_templates NoFile builtin_registry).2) ∧
       (∀ t, _templates r !! inl "nobg" = Some t → out = prompt t) ∧
       (∀ k, _templates r !! inl "nobg" = None → _alias_map r !! inl "nobg" = Some k →
          ∃ t, _templates r !! k = Some t ∧ out = prompt t) ∧
       (_templates r !! inl "nobg" = None → _alias_map r !! inl "nobg" = None →
          out = PStr "nobg")).
Proof.
  apply (resolve_prompt_io NoFile (Some builtin_registry) "nobg").
  intros r Hr. injection Hr as <-. apply builtins_registered.
Defined.

(** The first call of a process that cannot create its configuration directory
    raises the [PermissionError], which is no [ProviderError]; the global
    registry then holds the built-in templates, and the next call returns. *)
Lemma resolve_prompt_raises_on_first_call :
  resolve_prompt (DirFails permission_denied) "nobg" None
  = (Raise permission_denied, Some builtin_registry) ∧
  isinstance_ProviderError permission_denied = false ∧
  ∃ out, resolve_prompt (DirFails permission_denied) "nobg" (Some builtin_registry)
         = (Ok (PStr out), Some builtin_registry).
Proof.
  split_and!.
  - unfold resolve_prompt, bind. rewrite get_registry_first.
    generalize builtin_registry. intros b. reflexivity.
  - reflexivity.
  - eexists. vm_compute. reflexivity.
Qed.

End registry_io.

(** ** Provider operations *)

Section gemini_io.
Import Providers GeminiIO.

Ltac run_io :=
  unfold GeminiIO.run, GeminiIO.edit, GeminiIO.generate, GeminiIO.combine,
    read_response, check, send, log, wrap_foreign;
  unfold bind, try_except, modify, lift, ret, raise;
  cbn beta iota.
















(** With no fault the operations are those of [Providers]. *)
Lemma run_without_faults (env : Env) (call : Call) (self : GeminiProvider) :
  GeminiIO.run no_faults env call self = run_call env call self.
Proof.
  assert (∀ s, GeminiIO._get_client no_faults env s = Providers._get_client env s)
    as Hget.
  { intros s. unfold GeminiIO._get_client, Providers._get_client, bind, check, ret.
    cbn [settings_fault client_fault no_faults].
    repeat case_match; done. }
  destruct call;
    unfold run_call, Providers.edit, Providers.generate, Providers.combine;
    run_io; cbn [model_fault part_fault no_faults]; rewrite Hget;
    (destruct (Providers._get_client env _) as [[c|e] s0]; [|done]);
    (destruct (generate_content env c _) as [resp|e]; [|done]);
    cbn beta iota;
    (destruct (first_candidate_parts resp) as [ps|e]; [|done]);
    destruct (first_inline_data ps); done.
Qed.



End gemini_io.
